(** * tenfem: reference triangle element, local convection assembly, mesh provider

    A shallow embedding of

    - [tenfem/reference_elements/triangle/triangle_element.py]
      (class [TriangleElement]),
    - [tenfem/fem/assemble_local_convection_matrix.py],
    - [tenfem/layers/mesh_provider.py] (class [MeshProvider]),

    together with the properties the specification states about them.

    Conventions of the embedding.

    - A Python call either returns a value or raises: [result A].
    - The element data type ([tf.float32], [tf.float64], ...) is a carrier
      [T] with the arithmetic the code uses, the class [Scalar]; the
      instance [Float64.float64_scalar] is IEEE binary64, i.e. [tf.float64].
    - A tensor whose trailing axes are fixed is a nested list over those
      axes; a coordinate axis of size 2 is a pair; arbitrary leading batch
      axes (the [...] of the docstrings) are a [batch] tree.
    - TensorFlow broadcasting along an axis is [broadcast2]; a shape
      mismatch raises [InvalidArgumentError]. *)

From Stdlib Require Import ZArith List String Lia Bool.
From Stdlib Require Import Floats.
From stdpp Require Import base list.
Import ListNotations.

Local Open Scope Z_scope.

(** ** Python outcomes *)

Inductive exn : Type :=
| NotImplementedError (msg : string)
| ValueError (shape : list Z) (expected : Z)
| InvalidArgumentError (msg : string)
| AttributeError (attr : string).

Inductive result (A : Type) : Type :=
| Ok (a : A)
| Raise (e : exn).
Arguments Ok {A} a.
Arguments Raise {A} e.

Definition result_bind {A B} (f : A -> result B) (m : result A) : result B :=
  match m with
  | Ok a => f a
  | Raise e => Raise e
  end.

#[global] Instance result_ret : MRet result := fun _ a => Ok a.
#[global] Instance result_mbind : MBind result := fun _ _ f m => result_bind f m.
#[global] Instance result_fmap : FMap result :=
  fun _ _ f m => match m with Ok a => Ok (f a) | Raise e => Raise e end.

Definition is_Ok {A} (m : result A) : Prop := exists a, m = Ok a.
Definition raises {A} (m : result A) : Prop := exists e, m = Raise e.

(** [m] raises nothing but [ex]. *)
Definition raises_only {A} (ex : exn) (m : result A) : Prop :=
  forall e, m = Raise e -> e = ex.

(** ** Element data types *)

Inductive DType : Type := tf_float16 | tf_float32 | tf_float64.

(** The arithmetic of a floating-point dtype, as far as the code uses it.
    [s_abs] is not used by the code; the specification speaks of it. *)
Class Scalar (T : Type) : Type := {
  s_const : Z -> T;
  s_add : T -> T -> T;
  s_sub : T -> T -> T;
  s_mul : T -> T -> T;
  s_div : T -> T -> T;
  s_neg : T -> T;
  s_abs : T -> T
}.

(** The one algebraic law a statement below relies on. *)
Class ScalarLaws (T : Type) `{Scalar T} : Prop := {
  s_mul_comm : forall a b : T, s_mul a b = s_mul b a
}.

(** ** TriangleElement *)

Inductive shape_fn_name : Type := p1_shape_fn | p2_shape_fn.

Record TriangleElement : Type := mkTriangleElement {
  _degree : Z;
  _dtype : DType;
  _shape_fn : shape_fn_name;
  _quadrature_order : Z;
  _element_dim : Z
}.

Definition degree_msg : string :=
  String.append "Only degree p in [1, 2] polynomials currently supported"
                "for TriangleElement".

(** [TriangleElement.__init__(degree, dtype=tf.float32)] *)
Definition TriangleElement_init (degree : Z) (dtype : DType)
  : result TriangleElement :=
  if degree =? 1 then
    Ok {| _degree := degree; _dtype := dtype; _shape_fn := p1_shape_fn;
          _quadrature_order := 2; _element_dim := 3 |}
  else if degree =? 2 then
    Ok {| _degree := degree; _dtype := dtype; _shape_fn := p2_shape_fn;
          _quadrature_order := 4; _element_dim := 6 |}
  else Raise (NotImplementedError degree_msg).

(** The properties of the class ([degree], [quadrature_order], [dtype]) and
    of its base class ([element_dim], which returns the stored
    [_element_dim]). *)
Definition degree (self : TriangleElement) : Z := _degree self.
Definition quadrature_order (self : TriangleElement) : Z := _quadrature_order self.
Definition dtype (self : TriangleElement) : DType := _dtype self.
Definition element_dim (self : TriangleElement) : Z := _element_dim self.

(** ** Meshes *)

(** The attributes of [tenfem.mesh.BaseMesh] the code reads: [nodes], a
    [n_nodes, 2] float tensor, and [elements], a [n_elements, width] integer
    tensor; [elements_width] is [tf.shape(mesh.elements)[-1]], which a list
    of rows does not determine when there is no row. *)
Record Mesh (T : Type) : Type := mkMesh {
  nodes : list (T * T);
  elements : list (list Z);
  elements_width : nat
}.
Arguments mkMesh {T} _ _ _.
Arguments nodes {T} _.
Arguments elements {T} _.
Arguments elements_width {T} _.

Definition n_nodes {T} (mesh : Mesh T) : nat := length (nodes mesh).
Definition n_elements {T} (mesh : Mesh T) : nat := length (elements mesh).

(** The invariants of the data model: [elements] is rectangular, and every
    index in it is a valid index into [nodes]. *)
Definition rectangular {T} (mesh : Mesh T) : Prop :=
  Forall (fun row => length row = elements_width mesh) (elements mesh).

Definition valid_index {T} (mesh : Mesh T) (i : Z) : Prop :=
  0 <= i < Z.of_nat (n_nodes mesh).

Definition indexes_validly {T} (mesh : Mesh T) : Prop :=
  Forall (Forall (valid_index mesh)) (elements mesh).

(** The mesh with its connectivity replaced, as a caller that keeps the
    result of [orientate_element_indices] builds it. *)
Definition with_elements {T} (mesh : Mesh T) (elems : list (list Z)) : Mesh T :=
  mkMesh (nodes mesh) elems (elements_width mesh).

(** The row that the six slices of [orientate_element_indices] select from
    a row of the connectivity: its entries at 0, 5, 1, 3, 2, 4. *)
Definition boundary_path_order (row : list Z) : list Z :=
  [nth 0 row 0; nth 5 row 0; nth 1 row 0; nth 3 row 0; nth 2 row 0; nth 4 row 0].

(** The exceptions of the tensor operations. *)
Definition incompatible_shapes : exn := InvalidArgumentError "Incompatible shapes".
Definition indices_out_of_range : exn := InvalidArgumentError "indices out of range".
Definition slice_out_of_bounds : exn := InvalidArgumentError "slice index out of bounds".

(** ** Batches and broadcasting *)

(** Leading batch axes of any rank: [Item a] is rank 0, [Axis l] adds one
    axis. *)
#[warnings="-register-all"]
Inductive batch (A : Type) : Type :=
| Item (a : A)
| Axis (l : list (batch A)).
Arguments Item {A} a.
Arguments Axis {A} l.

Fixpoint bmap {A B} (f : A -> B) (b : batch A) : batch B :=
  match b with
  | Item a => Item (f a)
  | Axis l => Axis (fmap (bmap f) l)
  end.

Fixpoint bmapM {A B} (f : A -> result B) (b : batch A) : result (batch B) :=
  match b with
  | Item a => Item <$> f a
  | Axis l => Axis <$> mapM (bmapM f) l
  end.

(** The entry of a batch at a multi-index. *)
Fixpoint bget {A} (path : list nat) (b : batch A) : option A :=
  match path, b with
  | [], Item a => Some a
  | i :: path', Axis l => l !! i ≫= bget path'
  | _, _ => None
  end.

(** The entry [t[path..., q]] of a tensor of shape [..., n], and the entry
    [t[path..., q, k]] of a tensor of shape [..., n, d]. *)
Definition entry1 {A} (t : batch (list A)) (path : list nat) (q : nat) : option A :=
  match bget path t with
  | Some row => row !! q
  | None => None
  end.

Definition entry2 {A} (t : batch (list (list A))) (path : list nat) (q k : nat)
  : option A :=
  match bget path t with
  | Some m => match m !! q with
              | Some row => row !! k
              | None => None
              end
  | None => None
  end.

(** A rank-3 tensor [n, ., .] as a batch with one leading axis. *)
Definition batch_of_list {A} (l : list A) : batch A := Axis (fmap Item l).

(** An elementwise binary operation along one axis, with TensorFlow's
    broadcasting rule: the sizes agree, or one of them is 1. *)
Definition broadcast2 {A B C} (f : A -> B -> C) (a : list A) (b : list B)
  : result (list C) :=
  if Nat.eqb (length a) (length b) then Ok (zip_with f a b)
  else match a, b with
       | [a0], _ => Ok (fmap (f a0) b)
       | _, [b0] => Ok (fmap (fun x => f x b0) a)
       | _, _ => Raise (InvalidArgumentError "Incompatible shapes")
       end.

(** The same over the last two axes. *)
Definition broadcast22 {A B C} (f : A -> B -> C)
  (a : list (list A)) (b : list (list B)) : result (list (list C)) :=
  rows ← broadcast2 (broadcast2 f) a b; mapM (fun r => r) rows.

(** [t[..., tf.newaxis]] on a rank-1 tensor. *)
Definition newaxis {A} (t : list A) : list (list A) := fmap (fun v => [v]) t.

(** [tf.gather(params, indices)] for rank-2 [indices], with the CPU kernel's
    bounds check. *)
Definition tf_gather {A} (params : list A) (indices : list (list Z))
  : result (list (list A)) :=
  mapM (mapM (fun i : Z =>
                match (if 0 <=? i then params !! Z.to_nat i else None) with
                | Some a => Ok a
                | None => Raise (InvalidArgumentError "indices out of range")
                end)) indices.

(** [t[..., k, tf.newaxis]] on a rank-2 integer tensor of the given width. *)
Definition slice_last (width : nat) (t : list (list Z)) (k : nat)
  : result (list (list Z)) :=
  if Nat.ltb k width then Ok (fmap (fun row => [nth k row 0]) t)
  else Raise (InvalidArgumentError "slice index out of bounds").

(** [tf.concat(parts, axis=-1)] on rank-2 tensors with the same rows. *)
Fixpoint concat_last (parts : list (list (list Z))) : list (list Z) :=
  match parts with
  | [] => []
  | [p] => p
  | p :: rest => zip_with (fun a b => a ++ b) p (concat_last rest)
  end.

(** ** The model of the three source files *)

Section Model.
Context {T : Type} `{Scalar T}.

(** Modelled from the spec: the module [shape_functions] ([p1_shape_fn],
    [p2_shape_fn]) is not among the sources. By the specification a shape
    function set is pointwise in the canonical coordinates: at a point
    [(r, s)] it gives the shape values and their derivatives in [r] and in
    [s]. *)
Variable shape_functions : shape_fn_name -> T -> T -> list T * (list T * list T).

(** Modelled from the spec: the tables of the module [gaussian_quadrature]
    are not among the sources: (weights, nodes) for orders 2 and 4. *)
Variable gauss_table_2 gauss_table_4 : list T * list (T * T).

(** Modelled from the spec: [gauss_quad_nodes_and_weights(order, dtype)]
    of the module [gaussian_quadrature], not among the sources: the fixed
    table for an order in {2, 4}, a failure for any other order. *)
Definition gauss_quad_nodes_and_weights (order : Z) (dt : DType)
  : result (list T * list (T * T)) :=
  if order =? 2 then Ok gauss_table_2
  else if order =? 4 then Ok gauss_table_4
  else Raise (NotImplementedError "unsupported quadrature order").

(** [self.shape_function(r, s)] on rank-1 batches [r], [s]: the values,
    of shape [n, element_dim], and the gradients, of shape
    [2, n, element_dim]. *)
Definition shape_function (self : TriangleElement) (r s : list T)
  : list (list T) * list (list (list T)) :=
  let f := shape_functions (_shape_fn self) in
  let pts := zip r s in
  (fmap (fun p => (f p.1 p.2).1) pts,
   [fmap (fun p => (f p.1 p.2).2.1) pts; fmap (fun p => (f p.1 p.2).2.2) pts]).

(** [tf.reduce_sum] along one axis, as a sequential sum from zero. *)
Definition reduce_sum (l : list T) : T := fold_left s_add l (s_const 0).

(** [tf.reduce_sum(t, axis=-2)] where the last axis is a coordinate pair. *)
Definition reduce_sum_pairs (l : list (T * T)) : T * T :=
  (reduce_sum (fmap fst l), reduce_sum (fmap snd l)).

(** [TriangleElement.get_quadrature_nodes_and_weights] *)
Definition get_quadrature_nodes_and_weights (self : TriangleElement)
  : result (list T * list (T * T)) :=
  gauss_quad_nodes_and_weights (quadrature_order self) (dtype self).

(** [TriangleElement.get_quadrature_nodes] *)
Definition get_quadrature_nodes (self : TriangleElement) (mesh : Mesh T)
  : result (list (list (T * T))) :=
  '(_, quad_nodes) ← gauss_quad_nodes_and_weights (quadrature_order self) (dtype self);
  element_nodes ← tf_gather (nodes mesh) (elements mesh);
  let '(shape_fn_vals, shape_fn_grads) :=
    shape_function self (fmap fst quad_nodes) (fmap snd quad_nodes) in
  mapM (fun en : list (T * T) =>
          prod ← broadcast22 (fun (p : T * T) (v : T) => (s_mul p.1 v, s_mul p.2 v))
                             [en] shape_fn_vals;
          Ok (fmap (M:=list) reduce_sum_pairs prod))
       element_nodes.

(** The body of [isomap] past the evaluation of the shape functions, on
    one entry [en], of shape [element_dim, 2], of the batch [nodes]. *)
Definition isomap_element (shape_fn_grad : list (list (list T)))
  (en : list (T * T)) : result (list (list T) * list (list T) * list T) :=
  let grad0 := nth 0%nat shape_fn_grad [] in
  let grad1 := nth 1%nat shape_fn_grad [] in
  let x := [fmap fst en] in
  let y := [fmap snd en] in
  j11 ← fmap reduce_sum <$> broadcast22 s_mul grad0 x;
  j12 ← fmap reduce_sum <$> broadcast22 s_mul grad0 y;
  j21 ← fmap reduce_sum <$> broadcast22 s_mul grad1 x;
  j22 ← fmap reduce_sum <$> broadcast22 s_mul grad1 y;
  a ← broadcast2 s_mul j11 j22;
  b ← broadcast2 s_mul j12 j21;
  jacobian_det ← broadcast2 s_sub a b;
  xa ← broadcast22 s_mul (newaxis j22) grad0;
  xb ← broadcast22 s_mul (newaxis j12) grad1;
  xn ← broadcast22 s_sub xa xb;
  dSdx ← broadcast22 s_div xn (newaxis jacobian_det);
  ya ← broadcast22 s_mul (newaxis (fmap s_neg j21)) grad0;
  yb ← broadcast22 s_mul (newaxis j11) grad1;
  yn ← broadcast22 s_add ya yb;
  dSdy ← broadcast22 s_div yn (newaxis jacobian_det);
  Ok (dSdx, dSdy, jacobian_det).

(** [TriangleElement.isomap]: [nodes] has shape [..., element_dim, 2] and
    [canonical_coordinates] shape [n, 2]. The result is the shape values,
    the two stacked physical gradients and the Jacobian determinant. *)
Definition isomap (self : TriangleElement) (nodes : batch (list (T * T)))
  (canonical_coordinates : list (T * T))
  : result (list (list T) * list (batch (list (list T))) * batch (list T)) :=
  let r := fmap fst canonical_coordinates in
  let s := fmap snd canonical_coordinates in
  let '(shape_fn_vals, shape_fn_grad) := shape_function self r s in
  per ← bmapM (isomap_element shape_fn_grad) nodes;
  let dSdx := bmap (fun t => t.1.1) per in
  let dSdy := bmap (fun t => t.1.2) per in
  let jacobian_det := bmap (fun t => t.2) per in
  let pushfwd_shape_fn_grad := [dSdx; dSdy] in
  Ok (shape_fn_vals, pushfwd_shape_fn_grad, jacobian_det).

(** [TriangleElement.orientate_element_indices] *)
Definition orientate_element_indices (self : TriangleElement) (mesh : Mesh T)
  : result (list (list Z)) :=
  if element_dim self =? 3 then Ok (elements mesh)
  else if element_dim self =? 6 then
    let elem := elements mesh in
    let w := elements_width mesh in
    e0 ← slice_last w elem 0;
    e5 ← slice_last w elem 5;
    e1 ← slice_last w elem 1;
    e3 ← slice_last w elem 3;
    e2 ← slice_last w elem 2;
    e4 ← slice_last w elem 4;
    Ok (concat_last [e0; e5; e1; e3; e2; e4])
  else Raise (NotImplementedError
                "Only linear and quadratic elements currently implemented.").

(** The local [wxarea] of [assemble_local_convection_matrix]: the
    statements of the function up to [wxarea = jac_det * wts / 2]. *)
Definition convection_wxarea (mesh : Mesh T) (element : TriangleElement)
  : result (batch (list T)) :=
  element_nodes ← tf_gather (nodes mesh) (elements mesh);
  '(wts, quad_nodes) ← get_quadrature_nodes_and_weights element;
  '(_, pf_shape_fn_grad, jac_det) ← isomap element (batch_of_list element_nodes) quad_nodes;
  bmapM (fun det_row : list T =>
           m ← broadcast2 s_mul det_row wts;
           Ok (fmap (M:=list) (fun v => s_div v (s_const 2)) m))
        jac_det.

(** [assemble_local_convection_matrix]: the body ends after [wxarea], with
    no [return] statement, so a call that does not raise returns [None]. *)
Definition assemble_local_convection_matrix
  (transport_vector_field : list (batch (list (list T))))
  (mesh : Mesh T) (element : TriangleElement)
  : result (option (batch (list (list (list T))))) :=
  wxarea ← convection_wxarea mesh element;
  Ok None.

End Model.

(** ** The formulas of the specification *)

Section Formulas.
Context {T : Type} `{Scalar T}.

(** One entry of the Jacobian: [Σ_k dS_k · c_k], for the derivatives [dS]
    of the shape functions in one canonical direction and one coordinate
    [c] of the element's nodes. *)
Definition spec_jacobian_entry (dS coord : list T) : T :=
  reduce_sum (zip_with s_mul dS coord).

Record jacobian : Type := mkJacobian { J11 : T; J12 : T; J21 : T; J22 : T }.

(** [J = [[Σ ∂S/∂r · x, Σ ∂S/∂r · y], [Σ ∂S/∂s · x, Σ ∂S/∂s · y]]] *)
Definition spec_jacobian (dSdr dSds : list T) (en : list (T * T)) : jacobian :=
  {| J11 := spec_jacobian_entry dSdr (en.*1);
     J12 := spec_jacobian_entry dSdr (en.*2);
     J21 := spec_jacobian_entry dSds (en.*1);
     J22 := spec_jacobian_entry dSds (en.*2) |}.

(** [det(J) = J11·J22 − J12·J21] *)
Definition spec_det (J : jacobian) : T :=
  s_sub (s_mul (J11 J) (J22 J)) (s_mul (J12 J) (J21 J)).

(** [∂S/∂x = (J22·∂S/∂r − J12·∂S/∂s)/det(J)] *)
Definition spec_dSdx (J : jacobian) (dSdr dSds : T) : T :=
  s_div (s_sub (s_mul (J22 J) dSdr) (s_mul (J12 J) dSds)) (spec_det J).

(** [∂S/∂y = (−J21·∂S/∂r + J11·∂S/∂s)/det(J)] *)
Definition spec_dSdy (J : jacobian) (dSdr dSds : T) : T :=
  s_div (s_add (s_mul (s_neg (J21 J)) dSdr) (s_mul (J11 J) dSds)) (spec_det J).

(** [Σ_k shape_k · node_k], in each of the two coordinates. *)
Definition spec_weighted_sum (shape : list T) (en : list (T * T)) : T * T :=
  (reduce_sum (zip_with s_mul shape (en.*1)),
   reduce_sum (zip_with s_mul shape (en.*2))).

(** [w = |det(J)| · quadrature_weight / 2], as the specification has it. *)
Definition spec_wxarea (det wt : T) : T :=
  s_div (s_mul (s_abs det) wt) (s_const 2).

(** [w = det(J) · quadrature_weight / 2], with the determinant as it is. *)
Definition signed_wxarea (det wt : T) : T :=
  s_div (s_mul det wt) (s_const 2).

(** The nodes an element's indices select from the mesh. *)
Definition gathered (mesh : Mesh T) (elem : list Z) (en : list (T * T)) : Prop :=
  Forall2 (fun i p => 0 <= i /\ nodes mesh !! Z.to_nat i = Some p) elem en.

(** The shape function set of [self] gives, at every point, as many values
    and derivatives as the element has nodes. *)
Definition shape_fn_regular
  (shape_functions : shape_fn_name -> T -> T -> list T * (list T * list T))
  (self : TriangleElement) : Prop :=
  forall r s : T,
    let v := shape_functions (_shape_fn self) r s in
    length v.1 = Z.to_nat (element_dim self) /\
    length v.2.1 = Z.to_nat (element_dim self) /\
    length v.2.2 = Z.to_nat (element_dim self).

(** Every entry of the batch has [element_dim] nodes: the batch has shape
    [..., element_dim, 2]. *)
Definition batch_of_elements (self : TriangleElement) (nodes : batch (list (T * T))) : Prop :=
  forall path en, bget path nodes = Some en -> length en = Z.to_nat (element_dim self).

(** The mesh is made of elements of the reference element [self]: its
    connectivity is rectangular, of width [element_dim]. *)
Definition mesh_of_elements (self : TriangleElement) (mesh : Mesh T) : Prop :=
  rectangular mesh /\ Z.of_nat (elements_width mesh) = element_dim self.

End Formulas.

(** ** MeshProvider *)

(** The calls a [MeshProvider] makes into code outside these sources. *)
Inductive external_call : Type :=
| Call_BaseFEMLayer_init
| Call_get_tensor_repr
| Call_AssembleStiffnessMatrix.

(** Assembling the preconditioning matrix is the numerical work of the
    layer; the base-class constructor and reading the mesh tensors are not. *)
Definition is_numerical_work (c : external_call) : bool :=
  match c with
  | Call_AssembleStiffnessMatrix => true
  | _ => false
  end.

(** A computation that may raise and that records, in order, the external
    calls it has made. *)
Definition Traced (A : Type) : Type :=
  list external_call -> result A * list external_call.

Definition traced_ret {A} (a : A) : Traced A := fun tr => (Ok a, tr).
Definition traced_raise {A} (e : exn) : Traced A := fun tr => (Raise e, tr).
Definition traced_bind {A B} (f : A -> Traced B) (m : Traced A) : Traced B :=
  fun tr => match m tr with
            | (Ok a, tr') => f a tr'
            | (Raise e, tr') => (Raise e, tr')
            end.
Definition external {A} (c : external_call) (r : result A) : Traced A :=
  fun tr => (r, tr ++ [c]).

#[global] Instance Traced_ret : MRet Traced := fun _ a => traced_ret a.
#[global] Instance Traced_mbind : MBind Traced := fun _ _ f m => traced_bind f m.

Section Provider.
Context {T : Type}.

(** What [mesh.get_tensor_repr()] returns, and the preconditioning
    matrix. *)
Variables Repr Precond : Type.

(** [BaseMesh.get_tensor_repr], from the mesh module, which is not among
    the sources. *)
Variable get_tensor_repr : Mesh T -> Repr.

(** The layer [AssembleStiffnessMatrix(lambda x: tf.ones_like(x)[..., 0],
    reference_element=...)] applied to a tensor representation, from a
    module that is not among the sources; its result is a sequence. *)
Variable AssembleStiffnessMatrix : TriangleElement -> Repr -> result (list Precond).

Record MeshProvider : Type := mkMeshProvider {
  reference_element : TriangleElement;
  mesh : Mesh T;
  padding_element : Z;
  mp_n_nodes : nat;
  mp_n_elements : nat;
  return_precond_matrix : bool;
  precond_matrix : option Precond
}.

(** [MeshProvider._build_precond_matrix], returning the attribute it
    sets. *)
Definition _build_precond_matrix (self : MeshProvider) : Traced Precond :=
  repr ← external Call_get_tensor_repr (Ok (get_tensor_repr (mesh self)));
  out ← external Call_AssembleStiffnessMatrix
          (AssembleStiffnessMatrix (reference_element self) repr);
  match out with
  | pm :: _ => traced_ret pm
  | [] => traced_raise (InvalidArgumentError "index out of range")
  end.

(** [MeshProvider.__init__]. The base-class constructor stores
    [reference_element]. The message of the [ValueError] shows the shape
    of [mesh.elements] and the element's [element_dim]; the exception
    carries the two. *)
Definition MeshProvider_init (msh : Mesh T) (ref_element : TriangleElement)
  (padding : Z) (return_precond : bool) : Traced MeshProvider :=
  _ ← external Call_BaseFEMLayer_init (Ok tt);
  let elem_dim := Z.of_nat (elements_width msh) in
  if negb (elem_dim =? element_dim ref_element) then
    traced_raise (ValueError [Z.of_nat (n_elements msh); elem_dim]
                             (element_dim ref_element))
  else
    let self := {| reference_element := ref_element;
                   mesh := msh;
                   padding_element := padding;
                   mp_n_nodes := n_nodes msh;
                   mp_n_elements := n_elements msh;
                   return_precond_matrix := return_precond;
                   precond_matrix := None |} in
    if return_precond then
      pm ← _build_precond_matrix self;
      traced_ret {| reference_element := ref_element;
                    mesh := msh;
                    padding_element := padding;
                    mp_n_nodes := n_nodes msh;
                    mp_n_elements := n_elements msh;
                    return_precond_matrix := return_precond;
                    precond_matrix := Some pm |}
    else traced_ret self.

(** What [call] returns: the tensor representation alone, or paired with
    the preconditioning matrix. *)
Inductive call_output : Type :=
| Repr_only (r : Repr)
| Repr_and_precond (r : Repr) (pm : Precond).

(** [MeshProvider.call(inputs)], for [inputs] of any type. *)
Definition MeshProvider_call {I : Type} (self : MeshProvider) (inputs : I)
  : Traced call_output :=
  mesh_tensor_repr ← external Call_get_tensor_repr (Ok (get_tensor_repr (mesh self)));
  if return_precond_matrix self then
    match precond_matrix self with
    | Some pm => traced_ret (Repr_and_precond mesh_tensor_repr pm)
    | None => traced_raise (AttributeError "precond_matrix")
    end
  else traced_ret (Repr_only mesh_tensor_repr).

End Provider.

Arguments reference_element {T Precond} _.
Arguments mesh {T Precond} _.
Arguments padding_element {T Precond} _.
Arguments mp_n_nodes {T Precond} _.
Arguments mp_n_elements {T Precond} _.
Arguments return_precond_matrix {T Precond} _.
Arguments precond_matrix {T Precond} _.
Arguments Repr_only {Repr Precond} r.
Arguments Repr_and_precond {Repr Precond} r pm.

(** ** IEEE binary64 as the carrier: [tf.float64] *)

Module Float64.

#[global] Instance float64_scalar : Scalar float := {
  s_const z :=
    match z with
    | Z0 => PrimFloat.of_uint63 (Uint63.of_Z 0)
    | Zpos _ => PrimFloat.of_uint63 (Uint63.of_Z z)
    | Zneg p => PrimFloat.opp (PrimFloat.of_uint63 (Uint63.of_Z (Zpos p)))
    end;
  s_add := PrimFloat.add;
  s_sub := PrimFloat.sub;
  s_mul := PrimFloat.mul;
  s_div := PrimFloat.div;
  s_neg := PrimFloat.opp;
  s_abs := PrimFloat.abs
}.

(** Modelled from the spec: [p1_shape_fn], the barycentric functions
    [1-r-s, r, s] with the constant gradients [(-1,-1), (1,0), (0,1)], and
    [p2_shape_fn], the quadratic Lagrange basis on the vertices
    [(0,0), (1,0), (0,1)] and the edge midpoints [(0.5,0), (0.5,0.5),
    (0,0.5)], in that order. *)
Definition shape_functions (name : shape_fn_name) (r s : float)
  : list float * (list float * list float) :=
  match name with
  | p1_shape_fn =>
      ([1 - r - s; r; s],
       ([-1; 1; 0], [-1; 0; 1]))%float
  | p2_shape_fn =>
      let l := (1 - r - s)%float in
      ([l * (2 * l - 1); r * (2 * r - 1); s * (2 * s - 1);
        4 * r * l; 4 * r * s; 4 * s * l],
       ([1 - 4 * l; 4 * r - 1; 0; 4 * (l - r); 4 * s; - (4 * s)],
        [1 - 4 * l; 0; 4 * s - 1; - (4 * r); 4 * r; 4 * (l - s)]))%float
  end.

(** Modelled from the spec: quadrature tables (weights, nodes) on the
    canonical triangle; the weights sum to 1 and [wxarea] halves them. The
    order-2 table is the three-point rule, the order-4 table the six-point
    rule. *)
Definition gauss_table_2 : list float * list (float * float) :=
  ([1 / 3; 1 / 3; 1 / 3],
   [(1 / 6, 1 / 6); (2 / 3, 1 / 6); (1 / 6, 2 / 3)])%float.

#[warnings="-inexact-float"]
Definition gauss_table_4 : list float * list (float * float) :=
  ([0.223381589678011; 0.223381589678011; 0.223381589678011;
    0.109951743655322; 0.109951743655322; 0.109951743655322],
   [(0.445948490915965, 0.445948490915965);
    (0.445948490915965, 0.108103018168070);
    (0.108103018168070, 0.445948490915965);
    (0.091576213509771, 0.091576213509771);
    (0.091576213509771, 0.816847572980459);
    (0.816847572980459, 0.091576213509771)])%float.

(** The unit right triangle, as a one-element mesh, and the same triangle
    with two vertices exchanged, which reverses its orientation. *)
Definition unit_nodes : list (float * float) := [(0, 0); (1, 0); (0, 1)]%float.
Definition unit_triangle : Mesh float := mkMesh unit_nodes [[0; 1; 2]] 3.
Definition reversed_triangle : Mesh float := mkMesh unit_nodes [[0; 2; 1]] 3.

(** A degenerate element: its three nodes lie on one line. *)
Definition flat_element : list (float * float) := [(0, 0); (1, 0); (2, 0)]%float.

(** The elements [TriangleElement(1, tf.float64)] and
    [TriangleElement(2, tf.float64)]. *)
Definition linear_element : TriangleElement :=
  mkTriangleElement 1 tf_float64 p1_shape_fn 2 3.
Definition quadratic_element : TriangleElement :=
  mkTriangleElement 2 tf_float64 p2_shape_fn 4 6.

(** A transport field of shape [2, 1, 3] on a one-element mesh. *)
Definition unit_field : list (batch (list (list float))) :=
  [Item [[1; 1; 1]]; Item [[0; 0; 0]]]%float.

(** The unit triangle padded with the index [-1], the default
    [padding_element] of a [MeshProvider]. *)
Definition padded_triangle : Mesh float := mkMesh unit_nodes [[0; 1; -1]] 3.

(** The unit triangle as one quadratic element: vertices, then edge
    midpoints. *)
Definition quadratic_nodes : list (float * float) :=
  [(0, 0); (1, 0); (0, 1); (0.5, 0); (0.5, 0.5); (0, 0.5)]%float.
Definition quadratic_triangle : Mesh float :=
  mkMesh quadratic_nodes [[0; 1; 2; 3; 4; 5]] 6.

(** An entry of a batch with two nodes only. *)
Definition two_node_element : list (float * float) := [(0, 0); (1, 0)]%float.

End Float64.

(** ** Construction of the element (claim C5) *)

(** C5. Constructing a [TriangleElement] with degree 1 yields element_dim 3
    and quadrature_order 2; with degree 2 it yields element_dim 6 and
    quadrature_order 4; with any other degree it raises
    [NotImplementedError]; construction succeeds if and only if the degree
    is 1 or 2. *)
Theorem TriangleElement_init_spec (d : Z) (dt : DType) :
  (d = 1 ->
     exists e, TriangleElement_init d dt = Ok e /\
               element_dim e = 3 /\ quadrature_order e = 2) /\
  (d = 2 ->
     exists e, TriangleElement_init d dt = Ok e /\
               element_dim e = 6 /\ quadrature_order e = 4) /\
  (d <> 1 -> d <> 2 ->
     TriangleElement_init d dt = Raise (NotImplementedError degree_msg)) /\
  (is_Ok (TriangleElement_init d dt) <-> d = 1 \/ d = 2).
Proof.
  unfold TriangleElement_init, is_Ok.
  repeat split.
  - intros ->. simpl. eexists; repeat split.
  - intros ->. simpl. eexists; repeat split.
  - intros H1 H2.
    destruct (Z.eqb_spec d 1); [lia|]. destruct (Z.eqb_spec d 2); [lia|]. reflexivity.
  - intros [e He].
    destruct (Z.eqb_spec d 1); [lia|]. destruct (Z.eqb_spec d 2); [lia|]. discriminate.
  - intros [-> | ->]; simpl; eexists; reflexivity.
Qed.


(** ** Lemmas on the error monad, broadcasting and batches *)

Lemma mapM_cons {A B} (f : A -> result B) (x : A) (l : list A) :
  mapM f (x :: l) =
  result_bind (fun y => result_bind (fun k => Ok (y :: k)) (mapM f l)) (f x).
Proof. reflexivity. Qed.

Lemma mapM_Ok_map {A B} (f : A -> result B) (g : A -> B) (l : list A) :
  (forall x, x ∈ l -> f x = Ok (g x)) -> mapM f l = Ok (fmap g l).
Proof.
  induction l as [|x l IH]; intros Hf; [reflexivity|].
  rewrite mapM_cons, (Hf x) by left.
  rewrite IH by (intros y Hy; apply Hf; now right). reflexivity.
Qed.

Lemma mapM_id_map_Ok {A B} (h : A -> result B) (g : A -> B) (l : list A) :
  (forall x, x ∈ l -> h x = Ok (g x)) -> mapM (fun r => r) (fmap h l) = Ok (fmap g l).
Proof.
  induction l as [|x l IH]; intros Hh; [reflexivity|].
  rewrite fmap_cons, mapM_cons. cbv beta. rewrite (Hh x) by left.
  rewrite IH by (intros y Hy; apply Hh; now right). reflexivity.
Qed.

Lemma broadcast2_same_length {A B C} (f : A -> B -> C) a b :
  length a = length b -> broadcast2 f a b = Ok (zip_with f a b).
Proof.
  intros E. unfold broadcast2. rewrite E, Nat.eqb_refl. reflexivity.
Qed.

Lemma broadcast2_singleton_r {A B C} (f : A -> B -> C) a b0 :
  broadcast2 f a [b0] = Ok (fmap (fun x => f x b0) a).
Proof.
  unfold broadcast2. destruct (Nat.eqb_spec (length a) (length [b0])) as [E|E].
  - destruct a as [|a0 [|a1 a]]; try discriminate. reflexivity.
  - destruct a as [|a0 [|a1 a]]; reflexivity.
Qed.

Lemma broadcast2_singleton_l {A B C} (f : A -> B -> C) a0 b :
  broadcast2 f [a0] b = Ok (fmap (f a0) b).
Proof.
  unfold broadcast2. destruct (Nat.eqb_spec (length [a0]) (length b)) as [E|E].
  - destruct b as [|b0 [|b1 b]]; try discriminate. reflexivity.
  - reflexivity.
Qed.

(** A [n, d] tensor against a [1, d] tensor. *)
Lemma broadcast22_row {A B C} (f : A -> B -> C) (a : list (list A)) (x : list B) :
  Forall (fun row => length row = length x) a ->
  broadcast22 f a [x] = Ok (fmap (fun row => zip_with f row x) a).
Proof.
  intros Ha. unfold broadcast22. rewrite broadcast2_singleton_r. cbn.
  apply mapM_id_map_Ok. intros row Hrow.
  rewrite Forall_forall in Ha.
  apply broadcast2_same_length, Ha, Hrow.
Qed.

(** A [1, d] tensor against a [n, d] tensor. *)
Lemma broadcast22_row_l {A B C} (f : A -> B -> C) (x : list A) (b : list (list B)) :
  Forall (fun row => length row = length x) b ->
  broadcast22 f [x] b = Ok (fmap (fun row => zip_with f x row) b).
Proof.
  intros Hb. unfold broadcast22. rewrite broadcast2_singleton_l. cbn.
  apply mapM_id_map_Ok. intros row Hrow.
  rewrite Forall_forall in Hb.
  apply broadcast2_same_length. symmetry. apply Hb, Hrow.
Qed.

Lemma mapM_zip_with_Ok {A B C} (f : A -> B -> result C) (g : A -> B -> C) a b :
  (forall x y, f x y = Ok (g x y)) ->
  mapM (fun r => r) (zip_with f a b) = Ok (zip_with g a b).
Proof.
  intros Hf. revert b. induction a as [|x a IH]; intros [|y b]; try reflexivity.
  cbn [zip_with]. rewrite mapM_cons. cbv beta. rewrite Hf, IH. reflexivity.
Qed.

(** A [n, 1] tensor against a [n, d] tensor. *)
Lemma broadcast22_newaxis_l {A B C} (f : A -> B -> C) (j : list A) (b : list (list B)) :
  length j = length b ->
  broadcast22 f (newaxis j) b = Ok (zip_with (fun v row => fmap (f v) row) j b).
Proof.
  intros E. unfold broadcast22, newaxis.
  rewrite broadcast2_same_length by (now rewrite length_map). cbn.
  rewrite zip_with_fmap_l.
  apply mapM_zip_with_Ok. intros v row. apply broadcast2_singleton_l.
Qed.

(** A [n, d] tensor against a [n, 1] tensor. *)
Lemma broadcast22_newaxis_r {A B C} (f : A -> B -> C) (a : list (list A)) (j : list B) :
  length a = length j ->
  broadcast22 f a (newaxis j) = Ok (zip_with (fun row v => fmap (fun c => f c v) row) a j).
Proof.
  intros E. unfold broadcast22, newaxis.
  rewrite broadcast2_same_length by (now rewrite length_map). cbn.
  rewrite zip_with_fmap_r.
  apply mapM_zip_with_Ok. intros row v. apply broadcast2_singleton_r.
Qed.

Lemma fmap_zip_with_compose {A B C D} (k : C -> D) (f : A -> B -> C) a b :
  k <$> zip_with f a b = zip_with (fun x y => k (f x y)) a b.
Proof.
  revert b. induction a as [|x a IH]; intros [|y b]; try reflexivity.
  cbn. f_equal. apply IH.
Qed.

Lemma zip_with_map_map {A B C D} (f : B -> C -> D) (g : A -> B) (h : A -> C) (l : list A) :
  zip_with f (fmap g l) (fmap h l) = fmap (fun x => f (g x) (h x)) l.
Proof. induction l as [|x l IH]; [reflexivity|]. cbn. now rewrite IH. Qed.

(** Two [n, d] tensors built over the same points. *)
Lemma broadcast22_map_map {A B C D} (f : B -> C -> D)
  (g : A -> list B) (h : A -> list C) (l : list A) :
  (forall x, x ∈ l -> length (g x) = length (h x)) ->
  broadcast22 f (fmap g l) (fmap h l) = Ok (fmap (fun x => zip_with f (g x) (h x)) l).
Proof.
  intros Hl. unfold broadcast22.
  rewrite broadcast2_same_length by (now rewrite !length_map). cbn.
  rewrite zip_with_map_map.
  apply mapM_id_map_Ok. intros x Hx.
  now apply broadcast2_same_length, Hl.
Qed.

Lemma batch_ind' {A} (P : batch A -> Prop) :
  (forall a, P (Item a)) ->
  (forall l, Forall P l -> P (Axis l)) ->
  forall b, P b.
Proof.
  intros HI HA. fix IH 1. intros [a|l]; [apply HI|].
  apply HA. induction l as [|b l IHl]; constructor; [apply IH | apply IHl].
Qed.

Lemma bmapM_Ok_bmap {A B} (f : A -> result B) (g : A -> B) (b : batch A) :
  (forall path a, bget path b = Some a -> f a = Ok (g a)) ->
  bmapM f b = Ok (bmap g b).
Proof.
  induction b as [a|l IH] using batch_ind'; intros Hf.
  - cbn. rewrite (Hf [] a eq_refl). reflexivity.
  - cbn. rewrite (mapM_Ok_map _ (bmap g)); [reflexivity|].
    intros b Hb. rewrite Forall_forall in IH.
    apply IH; [exact Hb|].
    apply list_elem_of_lookup in Hb as [i Hi].
    intros path a Ha. apply (Hf (i :: path)). cbn. rewrite Hi. exact Ha.
Qed.

Lemma bmap_bmap {A B C} (g : B -> C) (f : A -> B) (b : batch A) :
  bmap g (bmap f b) = bmap (fun a => g (f a)) b.
Proof.
  induction b as [a|l IH] using batch_ind'; [reflexivity|].
  cbn. f_equal. rewrite <- list_fmap_compose. apply Forall_fmap_ext_1, IH.
Qed.

Lemma bget_bmap {A B} (g : A -> B) path (b : batch A) :
  bget path (bmap g b) = g <$> bget path b.
Proof.
  revert b. induction path as [|i path IH]; intros [a|l]; try reflexivity.
  cbn. rewrite list_lookup_fmap. destruct (l !! i) as [b|]; [apply IH|reflexivity].
Qed.

Lemma bget_batch_of_list {A} (l : list A) path a :
  bget path (batch_of_list l) = Some a <-> exists i, path = [i] /\ l !! i = Some a.
Proof.
  unfold batch_of_list. split.
  - destruct path as [|i path]; [discriminate|]. cbn.
    rewrite list_lookup_fmap. destruct (l !! i) as [x|] eqn:E; [|discriminate].
    cbn. destruct path; [|discriminate]. intros [= ->]. eauto.
  - intros (i & -> & Hi). cbn. rewrite list_lookup_fmap, Hi. reflexivity.
Qed.

(** ** The closed form of [isomap] on one element *)

Section IsomapElement.
Context {T : Type} `{Scalar T}.

Lemma fmap_zip_with_fmap {A B C D E F} (k : D -> F) (f : B -> C -> D) (g : A -> B) (h : E -> C) l1 l2 :
  fmap k (zip_with f (fmap g l1) (fmap h l2)) = zip_with (fun a b => k (f (g a) (h b))) l1 l2.
Proof.
  revert l2. induction l1 as [|a l1 IH]; intros [|b l2]; try reflexivity.
  cbn. f_equal. apply IH.
Qed.

Lemma broadcast2_fmap_fmap {A B C D} (f : B -> C -> D) (g : A -> B) (h : A -> C) (l : list A) :
  broadcast2 f (g <$> l) (h <$> l) = Ok ((fun x => f (g x) (h x)) <$> l).
Proof.
  rewrite broadcast2_same_length by (now rewrite !length_fmap).
  now rewrite zip_with_map_map.
Qed.

Lemma broadcast22_newaxis_l_fmap {A B C D} (f : B -> C -> D)
  (j : A -> B) (g : A -> list C) (l : list A) :
  broadcast22 f (newaxis (j <$> l)) (g <$> l) = Ok ((fun x => f (j x) <$> g x) <$> l).
Proof.
  rewrite broadcast22_newaxis_l by (now rewrite !length_fmap).
  now rewrite zip_with_map_map.
Qed.

Lemma broadcast22_newaxis_r_fmap {A B C D} (f : B -> C -> D)
  (g : A -> list B) (j : A -> C) (l : list A) :
  broadcast22 f (g <$> l) (newaxis (j <$> l)) =
  Ok ((fun x => (fun c => f c (j x)) <$> g x) <$> l).
Proof.
  rewrite broadcast22_newaxis_r by (now rewrite !length_fmap).
  now rewrite zip_with_map_map.
Qed.

Lemma fmap_ext_in {A B} (f g : A -> B) (l : list A) :
  (forall x, x ∈ l -> f x = g x) -> f <$> l = g <$> l.
Proof.
  intros Hfg. apply list_fmap_ext. intros i x Hx. apply Hfg.
  apply list_elem_of_lookup. eauto.
Qed.

Lemma isomap_element_closed {P} (dr ds : P -> list T) (pts : list P) (en : list (T * T)) :
  (forall p, p ∈ pts -> length (dr p) = length en /\ length (ds p) = length en) ->
  isomap_element [dr <$> pts; ds <$> pts] en =
  Ok ((fun p => let J := spec_jacobian (dr p) (ds p) en in zip_with (spec_dSdx J) (dr p) (ds p)) <$> pts,
      (fun p => let J := spec_jacobian (dr p) (ds p) en in zip_with (spec_dSdy J) (dr p) (ds p)) <$> pts,
      (fun p => spec_det (spec_jacobian (dr p) (ds p) en)) <$> pts).
Proof.
  intros Hlen. unfold isomap_element. cbn [nth].
  assert (Hr : forall c : list T, length c = length en ->
            broadcast22 s_mul (dr <$> pts) [c] = Ok ((fun p => zip_with s_mul (dr p) c) <$> pts)).
  { intros c Hc. rewrite broadcast22_row.
    - now rewrite <- list_fmap_compose.
    - apply Forall_fmap, Forall_forall. intros p Hp. cbn. rewrite Hc. apply Hlen, Hp. }
  assert (Hs : forall c : list T, length c = length en ->
            broadcast22 s_mul (ds <$> pts) [c] = Ok ((fun p => zip_with s_mul (ds p) c) <$> pts)).
  { intros c Hc. rewrite broadcast22_row.
    - now rewrite <- list_fmap_compose.
    - apply Forall_fmap, Forall_forall. intros p Hp. cbn. rewrite Hc. apply Hlen, Hp. }
  rewrite !Hr, !Hs by apply length_fmap.
  cbn [mbind result_mbind result_bind fmap result_fmap].
  rewrite <- !list_fmap_compose.
  rewrite !broadcast2_fmap_fmap.
  cbn [mbind result_mbind result_bind].
  rewrite !broadcast2_fmap_fmap.
  cbn [mbind result_mbind result_bind].
  rewrite !broadcast22_newaxis_l_fmap.
  cbn [mbind result_mbind result_bind].
  rewrite (broadcast22_map_map s_sub).
  2:{ intros p Hp. rewrite !length_fmap. destruct (Hlen p Hp). congruence. }
  cbn [mbind result_mbind result_bind].
  rewrite !broadcast22_newaxis_r_fmap.
  cbn [mbind result_mbind result_bind].
  rewrite (broadcast22_map_map s_add).
  2:{ intros p Hp. rewrite !length_fmap. destruct (Hlen p Hp). congruence. }
  cbn [mbind result_mbind result_bind].
  rewrite !broadcast22_newaxis_r_fmap.
  cbn [mbind result_mbind result_bind].
  apply f_equal. apply f_equal2; [apply f_equal2|].
  - apply fmap_ext_in. intros p _. apply fmap_zip_with_fmap.
  - apply fmap_ext_in. intros p _. apply fmap_zip_with_fmap.
  - reflexivity.
Qed.
End IsomapElement.

(** ** The isoparametric map (claims C4 and C3) *)

Section IsomapProperties.
Context {T : Type} `{Scalar T}.
Variable shape_functions : shape_fn_name -> T -> T -> list T * (list T * list T).

Lemma isomap_closed (self : TriangleElement) (nodes : batch (list (T * T)))
  (cc : list (T * T)) :
  shape_fn_regular shape_functions self ->
  batch_of_elements self nodes ->
  let f := fun p : T * T => shape_functions (_shape_fn self) p.1 p.2 in
  let J := fun en p => spec_jacobian (f p).2.1 (f p).2.2 en in
  isomap shape_functions self nodes cc =
  Ok ((fun p => (f p).1) <$> cc,
      [bmap (fun en => (fun p => zip_with (spec_dSdx (J en p)) (f p).2.1 (f p).2.2) <$> cc) nodes;
       bmap (fun en => (fun p => zip_with (spec_dSdy (J en p)) (f p).2.1 (f p).2.2) <$> cc) nodes],
      bmap (fun en => (fun p => spec_det (J en p)) <$> cc) nodes).
Proof.
  intros Hreg Hnodes f J. unfold isomap, shape_function.
  rewrite zip_fst_snd.
  erewrite bmapM_Ok_bmap.
  2:{ intros path en Hen.
      apply (isomap_element_closed (fun p => (f p).2.1) (fun p => (f p).2.2)).
      intros p _. rewrite (Hnodes path en Hen).
      destruct (Hreg p.1 p.2) as (_ & H1 & H2). split; assumption. }
  cbn [mbind result_mbind result_bind].
  rewrite !bmap_bmap. reflexivity.
Qed.

Lemma isomap_entries (self : TriangleElement) (nodes : batch (list (T * T)))
  (cc : list (T * T)) :
  shape_fn_regular shape_functions self ->
  batch_of_elements self nodes ->
  exists vals gx gy dets,
    isomap shape_functions self nodes cc = Ok (vals, [gx; gy], dets) /\
    vals = (fun p => (shape_functions (_shape_fn self) p.1 p.2).1) <$> cc /\
    forall path en q r s,
      bget path nodes = Some en -> cc !! q = Some (r, s) ->
      let v := shape_functions (_shape_fn self) r s in
      let J := spec_jacobian v.2.1 v.2.2 en in
      entry1 dets path q = Some (spec_det J) /\
      forall k a b, v.2.1 !! k = Some a -> v.2.2 !! k = Some b ->
        entry2 gx path q k = Some (spec_dSdx J a b) /\
        entry2 gy path q k = Some (spec_dSdy J a b).
Proof.
  intros Hreg Hnodes. do 4 eexists.
  split; [apply isomap_closed; assumption|].
  split; [reflexivity|].
  intros path en q r s Hen Hq v J.
  unfold entry1, entry2.
  rewrite !bget_bmap, Hen. cbn [fmap option_fmap option_map].
  rewrite !list_lookup_fmap, Hq. cbn [fmap option_fmap option_map].
  split; [reflexivity|].
  intros k a b Ha Hb. cbn [fst snd].
  rewrite !lookup_zip_with. fold v. rewrite Ha, Hb. split; reflexivity.
Qed.

(** C4. For every batch of element node coordinates of shape
    [..., element_dim, 2] and every batch of canonical coordinates, [isomap]
    returns (1) the shape values at the canonical coordinates, (2) the
    Jacobian determinant [J11·J22 − J12·J21], where [J11 = Σ ∂S/∂r·x],
    [J12 = Σ ∂S/∂r·y], [J21 = Σ ∂S/∂s·x], [J22 = Σ ∂S/∂s·y], and (3) the
    physical gradients [(J22·∂S/∂r − J12·∂S/∂s)/det(J)] and
    [(−J21·∂S/∂r + J11·∂S/∂s)/det(J)], stacked with the x-gradient first. *)
Theorem isomap_spec (self : TriangleElement) (nodes : batch (list (T * T)))
  (cc : list (T * T)) :
  shape_fn_regular shape_functions self ->
  batch_of_elements self nodes ->
  exists vals dSdx dSdy jacobian_det,
    isomap shape_functions self nodes cc = Ok (vals, [dSdx; dSdy], jacobian_det) /\
    length vals = length cc /\
    forall q r s, cc !! q = Some (r, s) ->
      let v := shape_functions (_shape_fn self) r s in
      vals !! q = Some v.1 /\
      forall path en, bget path nodes = Some en ->
        let J := {| J11 := reduce_sum (zip_with s_mul v.2.1 (en.*1));
                    J12 := reduce_sum (zip_with s_mul v.2.1 (en.*2));
                    J21 := reduce_sum (zip_with s_mul v.2.2 (en.*1));
                    J22 := reduce_sum (zip_with s_mul v.2.2 (en.*2)) |} in
        let det := s_sub (s_mul (J11 J) (J22 J)) (s_mul (J12 J) (J21 J)) in
        entry1 jacobian_det path q = Some det /\
        forall k dSdr dSds, v.2.1 !! k = Some dSdr -> v.2.2 !! k = Some dSds ->
          entry2 dSdx path q k =
            Some (s_div (s_sub (s_mul (J22 J) dSdr) (s_mul (J12 J) dSds)) det) /\
          entry2 dSdy path q k =
            Some (s_div (s_add (s_mul (s_neg (J21 J)) dSdr) (s_mul (J11 J) dSds)) det).
Proof.
  intros Hreg Hnodes.
  destruct (isomap_entries self nodes cc Hreg Hnodes)
    as (vals & gx & gy & dets & Heq & Hvals & Hent).
  exists vals, gx, gy, dets. split; [exact Heq|].
  split; [subst vals; apply length_fmap|].
  intros q r s Hq v. split.
  - subst vals. rewrite list_lookup_fmap, Hq. reflexivity.
  - intros path en Hen. exact (Hent path en q r s Hen Hq).
Qed.

(** C3, as the code has it. [isomap] makes no check of the Jacobian
    determinant: on every batch of shape [..., element_dim, 2] it returns
    normally, and where the determinant is zero the determinant it returns
    is that zero and the gradients it returns are the quotients by it. *)
Theorem isomap_divides_by_zero_determinant (self : TriangleElement)
  (nodes : batch (list (T * T))) (cc : list (T * T)) :
  shape_fn_regular shape_functions self ->
  batch_of_elements self nodes ->
  exists vals dSdx dSdy jacobian_det,
    isomap shape_functions self nodes cc = Ok (vals, [dSdx; dSdy], jacobian_det) /\
    forall path en q r s,
      bget path nodes = Some en -> cc !! q = Some (r, s) ->
      let v := shape_functions (_shape_fn self) r s in
      let J := spec_jacobian v.2.1 v.2.2 en in
      spec_det J = s_const 0 ->
      entry1 jacobian_det path q = Some (s_const 0) /\
      forall k dSdr dSds, v.2.1 !! k = Some dSdr -> v.2.2 !! k = Some dSds ->
        entry2 dSdx path q k =
          Some (s_div (s_sub (s_mul (J22 J) dSdr) (s_mul (J12 J) dSds)) (s_const 0)) /\
        entry2 dSdy path q k =
          Some (s_div (s_add (s_mul (s_neg (J21 J)) dSdr) (s_mul (J11 J) dSds)) (s_const 0)).
Proof.
  intros Hreg Hnodes.
  destruct (isomap_entries self nodes cc Hreg Hnodes)
    as (vals & gx & gy & dets & Heq & _ & Hent).
  exists vals, gx, gy, dets. split; [exact Heq|].
  intros path en q r s Hen Hq v J Hzero.
  destruct (Hent path en q r s Hen Hq) as [Hdet Hgrad].
  fold v in Hdet, Hgrad. fold J in Hdet, Hgrad.
  split; [now rewrite Hdet, Hzero|].
  intros k a b Ha Hb. destruct (Hgrad k a b Ha Hb) as [Hx Hy].
  unfold spec_dSdx, spec_dSdy in Hx, Hy. rewrite Hzero in Hx, Hy.
  split; assumption.
Qed.

End IsomapProperties.

(** ** Gathering the nodes of the elements *)

Lemma mapM_Forall2 {A B} (f : A -> result B) (R : A -> B -> Prop) (l : list A) :
  (forall x, x ∈ l -> exists y, f x = Ok y /\ R x y) ->
  exists l', mapM f l = Ok l' /\ Forall2 R l l'.
Proof.
  induction l as [|x l IH]; intros Hf.
  - exists []. split; [reflexivity|constructor].
  - destruct (Hf x) as (y & Hy & Rxy); [left|].
    destruct IH as (l' & Hl' & Rl'); [intros z Hz; apply Hf; now right|].
    exists (y :: l'). rewrite mapM_cons, Hy, Hl'. split; [reflexivity|].
    now constructor.
Qed.

Lemma tf_gather_Ok {T} (mesh : Mesh T) :
  indexes_validly mesh ->
  exists element_nodes,
    tf_gather (nodes mesh) (elements mesh) = Ok element_nodes /\
    Forall2 (gathered mesh) (elements mesh) element_nodes.
Proof.
  intros Hvalid. unfold tf_gather.
  apply mapM_Forall2. intros elem Helem.
  apply mapM_Forall2. intros i Hi.
  unfold indexes_validly in Hvalid. rewrite Forall_forall in Hvalid.
  specialize (Hvalid elem Helem). rewrite Forall_forall in Hvalid.
  destruct (Hvalid i Hi) as [Hlo Hhi]. unfold n_nodes in Hhi.
  destruct (Z.leb_spec 0 i) as [_|]; [|lia].
  destruct (lookup_lt_is_Some_2 (nodes mesh) (Z.to_nat i)) as [p Hp]; [lia|].
  exists p. rewrite Hp. auto.
Qed.

Lemma gathered_length {T} (mesh : Mesh T) elem en :
  gathered mesh elem en -> length en = length elem.
Proof. intros Hg. symmetry. exact (Forall2_length _ _ _ Hg). Qed.

(** ** Quadrature nodes on the mesh (claim C7) and the quadrature weight
       of the convection assembler (claims C2 and C1) *)

Section AssemblyProperties.
Context {T : Type} `{Scalar T}.
Variable shape_functions : shape_fn_name -> T -> T -> list T * (list T * list T).
Variable gauss_table_2 gauss_table_4 : list T * list (T * T).

Lemma zip_with_scale_fst (en : list (T * T)) (vals : list T) :
  (zip_with (fun (p : T * T) (v : T) => (s_mul p.1 v, s_mul p.2 v)) en vals).*1 =
  zip_with (fun v x => s_mul x v) vals (en.*1).
Proof.
  revert vals. induction en as [|p en IH]; intros [|v vals]; try reflexivity.
  cbn. f_equal. apply IH.
Qed.

Lemma zip_with_scale_snd (en : list (T * T)) (vals : list T) :
  (zip_with (fun (p : T * T) (v : T) => (s_mul p.1 v, s_mul p.2 v)) en vals).*2 =
  zip_with (fun v y => s_mul y v) vals (en.*2).
Proof.
  revert vals. induction en as [|p en IH]; intros [|v vals]; try reflexivity.
  cbn. f_equal. apply IH.
Qed.

Lemma get_quadrature_nodes_closed (self : TriangleElement) (mesh : Mesh T) wts quad_nodes :
  gauss_quad_nodes_and_weights gauss_table_2 gauss_table_4
    (quadrature_order self) (dtype self) = Ok (wts, quad_nodes) ->
  shape_fn_regular shape_functions self ->
  mesh_of_elements self mesh ->
  indexes_validly mesh ->
  exists element_nodes,
    Forall2 (gathered mesh) (elements mesh) element_nodes /\
    get_quadrature_nodes shape_functions gauss_table_2 gauss_table_4 self mesh =
    Ok ((fun en =>
           (fun p => reduce_sum_pairs
                       (zip_with (fun (n : T * T) (v : T) => (s_mul n.1 v, s_mul n.2 v))
                                 en (shape_functions (_shape_fn self) p.1 p.2).1))
           <$> quad_nodes) <$> element_nodes).
Proof.
  intros Hgauss Hreg [Hrect Hwidth] Hvalid.
  destruct (tf_gather_Ok mesh Hvalid) as (element_nodes & Hgather & Hg).
  exists element_nodes. split; [exact Hg|].
  unfold get_quadrature_nodes. rewrite Hgauss. cbn [mbind result_mbind result_bind].
  rewrite Hgather. cbn [mbind result_mbind result_bind].
  unfold shape_function. rewrite zip_fst_snd.
  apply mapM_Ok_map. intros en Hen.
  rewrite broadcast22_row_l.
  - cbn [mbind result_mbind result_bind]. now rewrite <- !list_fmap_compose.
  - apply Forall_fmap, Forall_forall. intros p _. cbn.
    destruct (Hreg p.1 p.2) as (-> & _ & _).
    apply list_elem_of_lookup in Hen as [e He].
    destruct (Forall2_lookup_r _ _ _ _ _ Hg He) as (elem & Helem & Hge).
    rewrite (gathered_length _ _ _ Hge).
    unfold rectangular in Hrect. rewrite Forall_forall in Hrect.
    rewrite (Hrect elem) by (apply list_elem_of_lookup; eauto). lia.
Qed.

Lemma constructed_quadrature_rule (deg : Z) (dt : DType) (self : TriangleElement) :
  TriangleElement_init deg dt = Ok self ->
  exists table,
    get_quadrature_nodes_and_weights gauss_table_2 gauss_table_4 self = Ok table /\
    (table = gauss_table_2 \/ table = gauss_table_4).
Proof.
  unfold TriangleElement_init, get_quadrature_nodes_and_weights,
    gauss_quad_nodes_and_weights.
  destruct (deg =? 1); [|destruct (deg =? 2)]; intros [= <-]; cbn; eauto.
Qed.

(** C7. For every mesh whose elements index validly into its nodes,
    [get_quadrature_nodes(mesh)] returns a tensor of shape
    [n_elements, n_quad_nodes, 2] whose entry for an element and a
    canonical quadrature node is the weighted sum
    [Σ_k shape_k(quad_node) · element_node_k] of the element's gathered
    node coordinates. *)
Theorem get_quadrature_nodes_spec `{!ScalarLaws T} (deg : Z) (dt : DType)
  (self : TriangleElement) (mesh : Mesh T) :
  TriangleElement_init deg dt = Ok self ->
  shape_fn_regular shape_functions self ->
  mesh_of_elements self mesh ->
  indexes_validly mesh ->
  exists wts quad_nodes quadrature_nodes,
    get_quadrature_nodes_and_weights gauss_table_2 gauss_table_4 self =
      Ok (wts, quad_nodes) /\
    get_quadrature_nodes shape_functions gauss_table_2 gauss_table_4 self mesh =
      Ok quadrature_nodes /\
    length quadrature_nodes = n_elements mesh /\
    Forall (fun row => length row = length quad_nodes) quadrature_nodes /\
    forall e elem, elements mesh !! e = Some elem ->
      exists en row,
        gathered mesh elem en /\
        quadrature_nodes !! e = Some row /\
        forall q r s, quad_nodes !! q = Some (r, s) ->
          row !! q =
          Some (spec_weighted_sum (shape_functions (_shape_fn self) r s).1 en).
Proof.
  intros Hinit Hreg Hmesh Hvalid.
  destruct (constructed_quadrature_rule deg dt self Hinit) as ([wts quad_nodes] & Hrule & _).
  destruct (get_quadrature_nodes_closed self mesh wts quad_nodes Hrule Hreg Hmesh Hvalid)
    as (element_nodes & Hg & Heq).
  exists wts, quad_nodes. eexists. split; [exact Hrule|]. split; [exact Heq|].
  split; [|split].
  - rewrite length_fmap. unfold n_elements. symmetry. exact (Forall2_length _ _ _ Hg).
  - apply Forall_fmap, Forall_forall. intros en _. cbn. apply length_fmap.
  - intros e elem Helem.
    destruct (Forall2_lookup_l _ _ _ _ _ Hg Helem) as (en & Hen & Hge).
    exists en. eexists. split; [exact Hge|].
    split; [rewrite list_lookup_fmap, Hen; reflexivity|].
    intros q r s Hq. rewrite list_lookup_fmap, Hq. cbn [fmap option_fmap option_map].
    f_equal. unfold reduce_sum_pairs, spec_weighted_sum. cbn [fst snd].
    rewrite zip_with_scale_fst, zip_with_scale_snd.
    f_equal; f_equal; apply zip_with_ext; auto using s_mul_comm.
Qed.

Lemma bget_batch_of_list_lookup {A} (l : list A) (e : nat) :
  bget [e] (batch_of_list l) = l !! e.
Proof.
  unfold batch_of_list. cbn. rewrite list_lookup_fmap.
  now destruct (l !! e).
Qed.

Lemma convection_wxarea_closed (self : TriangleElement) (mesh : Mesh T) wts quad_nodes :
  get_quadrature_nodes_and_weights gauss_table_2 gauss_table_4 self =
    Ok (wts, quad_nodes) ->
  length wts = length quad_nodes ->
  shape_fn_regular shape_functions self ->
  mesh_of_elements self mesh ->
  indexes_validly mesh ->
  exists element_nodes,
    Forall2 (gathered mesh) (elements mesh) element_nodes /\
    convection_wxarea shape_functions gauss_table_2 gauss_table_4 mesh self =
    Ok (batch_of_list
          ((fun en =>
              zip_with signed_wxarea
                ((fun p => let v := shape_functions (_shape_fn self) p.1 p.2 in
                           spec_det (spec_jacobian v.2.1 v.2.2 en)) <$> quad_nodes)
                wts) <$> element_nodes)).
Proof.
  intros Hrule Hlen Hreg [Hrect Hwidth] Hvalid.
  destruct (tf_gather_Ok mesh Hvalid) as (element_nodes & Hgather & Hg).
  exists element_nodes. split; [exact Hg|].
  unfold convection_wxarea. rewrite Hgather. cbn [mbind result_mbind result_bind].
  rewrite Hrule. cbn [mbind result_mbind result_bind].
  rewrite (isomap_closed shape_functions self _ quad_nodes Hreg).
  2:{ intros path en Hen. apply bget_batch_of_list in Hen as (e & -> & He).
      destruct (Forall2_lookup_r _ _ _ _ _ Hg He) as (elem & Helem & Hge).
      rewrite (gathered_length _ _ _ Hge).
      unfold rectangular in Hrect. rewrite Forall_forall in Hrect.
      rewrite (Hrect elem) by (apply list_elem_of_lookup; eauto). lia. }
  cbn [mbind result_mbind result_bind].
  erewrite bmapM_Ok_bmap.
  2:{ intros path det_row Hrow. rewrite bget_bmap in Hrow.
      destruct (bget path (batch_of_list element_nodes)) as [en|]; [|discriminate].
      injection Hrow as <-.
      rewrite broadcast2_same_length by (now rewrite length_fmap).
      cbn [mbind result_mbind result_bind].
      instantiate (1 := fun det_row => (fun v => s_div v (s_const 2)) <$> zip_with s_mul det_row wts).
      reflexivity. }
  f_equal. rewrite bmap_bmap. unfold batch_of_list. cbn [bmap]. f_equal.
  rewrite <- !list_fmap_compose. apply list_fmap_ext. intros e en _. cbn.
  f_equal. apply fmap_zip_with_compose.
Qed.

(** C2, as the code has it. The convection assembler forms the combined
    quadrature weight as [w = det(J) · quadrature_weight / 2], with the
    Jacobian determinant as [isomap] returns it: no absolute value is
    taken. *)
Theorem convection_wxarea_signed (deg : Z) (dt : DType)
  (self : TriangleElement) (mesh : Mesh T) :
  TriangleElement_init deg dt = Ok self ->
  length gauss_table_2.1 = length gauss_table_2.2 ->
  length gauss_table_4.1 = length gauss_table_4.2 ->
  shape_fn_regular shape_functions self ->
  mesh_of_elements self mesh ->
  indexes_validly mesh ->
  exists wts quad_nodes wxarea,
    get_quadrature_nodes_and_weights gauss_table_2 gauss_table_4 self =
      Ok (wts, quad_nodes) /\
    convection_wxarea shape_functions gauss_table_2 gauss_table_4 mesh self =
      Ok wxarea /\
    forall e elem, elements mesh !! e = Some elem ->
      exists en,
        gathered mesh elem en /\
        forall q r s wt, quad_nodes !! q = Some (r, s) -> wts !! q = Some wt ->
          let v := shape_functions (_shape_fn self) r s in
          let det := spec_det (spec_jacobian v.2.1 v.2.2 en) in
          entry1 wxarea [e] q = Some (s_div (s_mul det wt) (s_const 2)).
Proof.
  intros Hinit Hlen2 Hlen4 Hreg Hmesh Hvalid.
  destruct (constructed_quadrature_rule deg dt self Hinit)
    as ([wts quad_nodes] & Hrule & Htable).
  assert (Hlen : length wts = length quad_nodes)
    by (destruct Htable as [<- | <-]; assumption).
  destruct (convection_wxarea_closed self mesh wts quad_nodes Hrule Hlen Hreg Hmesh Hvalid)
    as (element_nodes & Hg & Heq).
  exists wts, quad_nodes. eexists. split; [exact Hrule|]. split; [exact Heq|].
  intros e elem Helem.
  destruct (Forall2_lookup_l _ _ _ _ _ Hg Helem) as (en & Hen & Hge).
  exists en. split; [exact Hge|].
  intros q r s wt Hq Hwt v det. unfold entry1.
  rewrite bget_batch_of_list_lookup, list_lookup_fmap, Hen.
  cbn [fmap option_fmap option_map].
  rewrite lookup_zip_with, list_lookup_fmap, Hq, Hwt. reflexivity.
Qed.

(** Whatever its arguments, a call of [assemble_local_convection_matrix]
    that returns, returns [None]. *)
Lemma assemble_local_convection_matrix_returns_None
  (field : list (batch (list (list T)))) (mesh : Mesh T) (element : TriangleElement) r :
  assemble_local_convection_matrix shape_functions gauss_table_2 gauss_table_4
    field mesh element = Ok r ->
  r = None.
Proof.
  unfold assemble_local_convection_matrix.
  destruct (convection_wxarea _ _ _ mesh element); cbn; congruence.
Qed.

(** ** The quadrature rule (claim C9) *)

(** C9. The quadrature rule succeeds exactly for the orders 2 and 4, where
    it returns the fixed table of that order, and fails with an
    unsupported-order error for every other order; the method
    [get_quadrature_nodes_and_weights] of an element is the rule at the
    element's [quadrature_order]. *)
Theorem gauss_quad_nodes_and_weights_spec (order : Z) (dt : DType) :
  (order = 2 ->
     gauss_quad_nodes_and_weights gauss_table_2 gauss_table_4 order dt = Ok gauss_table_2) /\
  (order = 4 ->
     gauss_quad_nodes_and_weights gauss_table_2 gauss_table_4 order dt = Ok gauss_table_4) /\
  (order <> 2 -> order <> 4 ->
     raises (gauss_quad_nodes_and_weights gauss_table_2 gauss_table_4 order dt)) /\
  (is_Ok (gauss_quad_nodes_and_weights gauss_table_2 gauss_table_4 order dt) <->
     order = 2 \/ order = 4) /\
  (forall self,
     quadrature_order self = order -> dtype self = dt ->
     get_quadrature_nodes_and_weights gauss_table_2 gauss_table_4 self =
     gauss_quad_nodes_and_weights gauss_table_2 gauss_table_4 order dt).
Proof.
  unfold gauss_quad_nodes_and_weights, is_Ok, raises.
  repeat split.
  - now intros ->.
  - now intros ->.
  - intros H2 H4.
    destruct (Z.eqb_spec order 2); [lia|]. destruct (Z.eqb_spec order 4); [lia|]. eauto.
  - intros [t Ht].
    destruct (Z.eqb_spec order 2); [lia|]. destruct (Z.eqb_spec order 4); [lia|]. discriminate.
  - intros [-> | ->]; cbn; eauto.
  - intros self <- <-. reflexivity.
Qed.

End AssemblyProperties.

(** ** Reorientation of the element indices (claim C6) *)

Lemma slice_last_Ok (width : nat) (t : list (list Z)) (k : nat) :
  (k < width)%nat -> slice_last width t k = Ok ((fun row => [nth k row 0]) <$> t).
Proof.
  intros Hk. unfold slice_last. destruct (Nat.ltb_spec k width); [reflexivity|lia].
Qed.

(** C6. [orientate_element_indices] returns [mesh.elements] unchanged when
    element_dim is 3; when element_dim is 6 it returns, for every element,
    the original indices at the positions [0, 5, 1, 3, 2, 4], which is the
    order [v0, m2, v1, m0, v2, m1] of the vertices [v] and edge midpoints
    [m]; for any other element_dim it raises [NotImplementedError]. *)
Theorem orientate_element_indices_spec {T} (self : TriangleElement) (mesh : Mesh T) :
  (element_dim self = 3 ->
     orientate_element_indices self mesh = Ok (elements mesh)) /\
  (element_dim self = 6 -> elements_width mesh = 6%nat -> rectangular mesh ->
     exists out,
       orientate_element_indices self mesh = Ok out /\
       length out = n_elements mesh /\
       forall e row, elements mesh !! e = Some row ->
         exists v0 v1 v2 m0 m1 m2,
           row = [v0; v1; v2; m0; m1; m2] /\
           out !! e = Some [v0; m2; v1; m0; v2; m1]) /\
  (element_dim self <> 3 -> element_dim self <> 6 ->
     orientate_element_indices self mesh =
     Raise (NotImplementedError
              "Only linear and quadratic elements currently implemented.")).
Proof.
  unfold orientate_element_indices. repeat split.
  - intros ->. reflexivity.
  - intros -> Hw Hrect. cbn [Z.eqb Pos.eqb]. rewrite Hw.
    rewrite !slice_last_Ok by lia. cbn [mbind result_mbind result_bind].
    eexists. split; [reflexivity|]. cbn [concat_last].
    rewrite !zip_with_map_map. split; [apply length_fmap|].
    intros e row Hrow. rewrite list_lookup_fmap, Hrow.
    unfold rectangular in Hrect. rewrite Forall_forall in Hrect.
    assert (Hlen : length row = 6%nat)
      by (rewrite <- Hw; apply Hrect, list_elem_of_lookup; eauto).
    destruct row as [|v0 [|v1 [|v2 [|m0 [|m1 [|m2 [|]]]]]]]; try discriminate.
    exists v0, v1, v2, m0, m1, m2. split; reflexivity.
  - intros H3 H6.
    destruct (Z.eqb_spec (element_dim self) 3); [lia|].
    destruct (Z.eqb_spec (element_dim self) 6); [lia|]. reflexivity.
Qed.

(** ** The mesh provider (claims C8 and C10) *)

Section ProviderProperties.
Context {T : Type}.
Variables Repr Precond : Type.
Variable get_tensor_repr : Mesh T -> Repr.
Variable AssembleStiffnessMatrix : TriangleElement -> Repr -> result (list Precond).

(** C8. Constructing a [MeshProvider] raises the shape-mismatch
    [ValueError] whenever the last-axis width of [mesh.elements] differs
    from the reference element's element_dim, and at that point only the
    base-class constructor has run: no numerical work has been done, and in
    particular no preconditioning matrix has been assembled. *)
Theorem MeshProvider_init_shape_mismatch (msh : Mesh T) (ref_element : TriangleElement)
  (padding : Z) (return_precond : bool) :
  Z.of_nat (elements_width msh) <> element_dim ref_element ->
  exists trace,
    MeshProvider_init Repr Precond get_tensor_repr AssembleStiffnessMatrix
      msh ref_element padding return_precond [] =
    (Raise (ValueError [Z.of_nat (n_elements msh); Z.of_nat (elements_width msh)]
                       (element_dim ref_element)),
     trace) /\
    trace = [Call_BaseFEMLayer_init] /\
    Forall (fun c => is_numerical_work c = false) trace /\
    Call_AssembleStiffnessMatrix ∉ trace.
Proof.
  intros Hneq. exists [Call_BaseFEMLayer_init].
  unfold MeshProvider_init.
  destruct (Z.eqb_spec (Z.of_nat (elements_width msh)) (element_dim ref_element)) as [E|E];
    [contradiction|].
  repeat split.
  - repeat constructor.
  - intros Hin. apply list_elem_of_singleton in Hin. discriminate.
Qed.

Lemma MeshProvider_init_Ok (msh : Mesh T) (ref_element : TriangleElement)
  (padding : Z) (return_precond : bool) tr0 self tr1 :
  MeshProvider_init Repr Precond get_tensor_repr AssembleStiffnessMatrix
    msh ref_element padding return_precond tr0 = (Ok self, tr1) ->
  mesh self = msh /\
  return_precond_matrix self = return_precond /\
  (return_precond = true -> exists pm, precond_matrix self = Some pm).
Proof.
  unfold MeshProvider_init.
  cbv [mbind Traced_mbind traced_bind external traced_ret traced_raise].
  destruct (negb _); [discriminate|].
  destruct return_precond.
  - unfold _build_precond_matrix.
    cbv [mbind Traced_mbind traced_bind external traced_ret traced_raise].
    cbn [mesh reference_element].
    destruct (AssembleStiffnessMatrix ref_element (get_tensor_repr msh)) as [[|pm out]|e];
      try discriminate.
    intros [= <- _]. cbn. eauto.
  - intros [= <- _]. cbn. repeat split. discriminate.
Qed.

(** C10. For a [MeshProvider] constructed with a mesh and a reference
    element, [call] returns the same result for every pair of [inputs]: the
    output is the tensor representation of the construction-time mesh,
    paired with the preconditioning matrix built at construction when
    [return_precond_matrix] is set. *)
Theorem MeshProvider_call_ignores_inputs (msh : Mesh T) (ref_element : TriangleElement)
  (padding : Z) (return_precond : bool) tr0 self tr1 :
  MeshProvider_init Repr Precond get_tensor_repr AssembleStiffnessMatrix
    msh ref_element padding return_precond tr0 = (Ok self, tr1) ->
  forall (I1 I2 : Type) (inputs1 : I1) (inputs2 : I2) (tr : list external_call),
    MeshProvider_call Repr Precond get_tensor_repr self inputs1 tr =
    MeshProvider_call Repr Precond get_tensor_repr self inputs2 tr /\
    exists out,
      MeshProvider_call Repr Precond get_tensor_repr self inputs1 tr =
        (Ok out, tr ++ [Call_get_tensor_repr]) /\
      (return_precond = false -> out = Repr_only (get_tensor_repr msh)) /\
      (return_precond = true ->
         exists pm, precond_matrix self = Some pm /\
                    out = Repr_and_precond (get_tensor_repr msh) pm).
Proof.
  intros Hinit I1 I2 inputs1 inputs2 tr.
  split; [reflexivity|].
  destruct (MeshProvider_init_Ok _ _ _ _ _ _ _ Hinit) as (Hmesh & Hflag & Hpm).
  unfold MeshProvider_call.
  cbv [mbind Traced_mbind traced_bind external traced_ret traced_raise].
  rewrite Hmesh, Hflag. destruct return_precond.
  - destruct (Hpm eq_refl) as [pm Hpm']. rewrite Hpm'.
    eexists. split; [reflexivity|]. split; [discriminate|]. eauto.
  - eexists. split; [reflexivity|]. split; [reflexivity|discriminate].
Qed.

End ProviderProperties.

(** ** How failures propagate *)

Lemma raises_only_Ok {A} ex (a : A) : raises_only ex (Ok a).
Proof. intros e He. discriminate. Qed.

Lemma raises_only_Raise {A} ex : raises_only (A:=A) ex (Raise ex).
Proof. intros e [= <-]. reflexivity. Qed.

Lemma raises_only_bind {A B} ex (m : result A) (f : A -> result B) :
  raises_only ex m -> (forall a, raises_only ex (f a)) -> raises_only ex (m ≫= f).
Proof.
  intros Hm Hf e. destruct m as [a|e']; cbn.
  - apply Hf.
  - intros [= <-]. now apply Hm.
Qed.

Lemma raises_only_fmap {A B} ex (m : result A) (f : A -> B) :
  raises_only ex m -> raises_only ex (f <$> m).
Proof.
  intros Hm e. destruct m as [a|e']; cbn; [discriminate|].
  intros [= <-]. now apply Hm.
Qed.

Lemma raises_only_mapM {A B} ex (f : A -> result B) (l : list A) :
  (forall x, x ∈ l -> raises_only ex (f x)) -> raises_only ex (mapM f l).
Proof.
  induction l as [|x l IH]; intros Hf; [apply raises_only_Ok|].
  rewrite mapM_cons.
  apply (raises_only_bind ex (f x)); [apply Hf; left|]. intros y.
  apply (raises_only_bind ex (mapM f l)); [apply IH; intros z Hz; apply Hf; now right|].
  intros k. apply raises_only_Ok.
Qed.

Lemma raises_only_bmapM {A B} ex (f : A -> result B) (b : batch A) :
  (forall a, raises_only ex (f a)) -> raises_only ex (bmapM f b).
Proof.
  intros Hf. induction b as [a|l IH] using batch_ind'; cbn [bmapM].
  - apply raises_only_fmap, Hf.
  - apply raises_only_fmap, raises_only_mapM. intros b Hb.
    rewrite Forall_forall in IH. now apply IH.
Qed.

Lemma raises_only_broadcast2 {A B C} (f : A -> B -> C) a b :
  raises_only incompatible_shapes (broadcast2 f a b).
Proof.
  unfold broadcast2. destruct (Nat.eqb _ _); [apply raises_only_Ok|].
  destruct a as [|a0 [|a1 a]], b as [|b0 [|b1 b]];
    first [apply raises_only_Ok | apply raises_only_Raise].
Qed.

Lemma Forall_fmap_all {A B} (P : B -> Prop) (g : A -> B) (l : list A) :
  (forall x, P (g x)) -> Forall P (g <$> l).
Proof. intros Hg. apply Forall_fmap, Forall_forall. intros x _. apply Hg. Qed.

Lemma Forall_zip_with_all {A B C} (P : C -> Prop) (f : A -> B -> C) a b :
  (forall x y, P (f x y)) -> Forall P (zip_with f a b).
Proof.
  intros Hf. revert b. induction a as [|x a IH]; intros [|y b]; cbn; constructor;
    [apply Hf|apply IH].
Qed.

Lemma broadcast2_Ok_Forall {A B C} (P : C -> Prop) (f : A -> B -> C) a b rows :
  (forall x y, P (f x y)) -> broadcast2 f a b = Ok rows -> Forall P rows.
Proof.
  intros Hf. destruct a as [|a0 [|a1 a]].
  - destruct b as [|b0 [|b1 b]]; cbn; intros [= <-]; constructor.
  - rewrite broadcast2_singleton_l. intros Heq. injection Heq as <-.
    apply (Forall_fmap_all P (f a0) b). intros y. apply Hf.
  - destruct b as [|b0 [|b1 b]].
    + discriminate.
    + rewrite broadcast2_singleton_r. intros Heq. injection Heq as <-.
      apply (Forall_fmap_all P (fun x => f x b0) (a0 :: a1 :: a)). intros x. apply Hf.
    + unfold broadcast2. destruct (Nat.eqb _ _); [|discriminate].
      intros Heq. injection Heq as <-.
      now apply (Forall_zip_with_all P f (a0 :: a1 :: a) (b0 :: b1 :: b)).
Qed.

Lemma raises_only_broadcast22 {A B C} (f : A -> B -> C) a b :
  raises_only incompatible_shapes (broadcast22 f a b).
Proof.
  unfold broadcast22.
  destruct (broadcast2 (broadcast2 f) a b) as [rows|e] eqn:E.
  - cbn. apply raises_only_mapM. intros r Hr.
    pose proof (broadcast2_Ok_Forall (raises_only incompatible_shapes)
                  (broadcast2 f) a b rows (raises_only_broadcast2 f) E) as Hrows.
    rewrite Forall_forall in Hrows. now apply Hrows.
  - cbn. intros e' [= <-]. exact (raises_only_broadcast2 (broadcast2 f) a b e E).
Qed.

Lemma mapM_raises {A B} (f : A -> result B) (l : list A) i x :
  l !! i = Some x -> raises (f x) -> raises (mapM f l).
Proof.
  revert i. induction l as [|y l IH]; intros [|i] Hi [e He]; try discriminate.
  - injection Hi as ->. rewrite mapM_cons, He. now exists e.
  - rewrite mapM_cons. destruct (f y) as [b|e']; [|now exists e'].
    destruct (IH i Hi (ex_intro _ e He)) as [e'' He'']. cbn. rewrite He''. now exists e''.
Qed.

Lemma bmapM_raises {A B} (f : A -> result B) path (b : batch A) a :
  bget path b = Some a -> raises (f a) -> raises (bmapM f b).
Proof.
  revert b. induction path as [|i path IH]; intros [a'|l] Hget Hr; try discriminate.
  - injection Hget as ->. destruct Hr as [e He]. cbn. rewrite He. now exists e.
  - cbn in Hget. destruct (l !! i) as [b|] eqn:Hi; [|discriminate].
    destruct (mapM_raises (bmapM f) l i b Hi (IH b Hget Hr)) as [e He].
    cbn. rewrite He. now exists e.
Qed.

Lemma raises_bind {A B} (m : result A) (f : A -> result B) :
  raises m -> raises (m ≫= f).
Proof. intros [e ->]. now exists e. Qed.

Lemma raises_only_raises {A} ex (m : result A) :
  raises_only ex m -> raises m -> m = Raise ex.
Proof. intros Ho [e He]. rewrite He. f_equal. now apply Ho. Qed.

(** ** Failures of the element operations *)

Ltac raises_only_step :=
  first [ apply raises_only_Ok
        | apply raises_only_Raise
        | apply raises_only_broadcast2
        | apply raises_only_broadcast22
        | apply raises_only_fmap
        | apply raises_only_bind; [|intros ?] ].

Section Failures.
Context {T : Type} `{Scalar T}.
Variable shape_functions : shape_fn_name -> T -> T -> list T * (list T * list T).
Variable gauss_table_2 gauss_table_4 : list T * list (T * T).

Lemma raises_only_isomap_element (shape_fn_grad : list (list (list T))) (en : list (T * T)) :
  raises_only incompatible_shapes (isomap_element shape_fn_grad en).
Proof. unfold isomap_element. repeat raises_only_step. Qed.

Lemma raises_only_isomap (self : TriangleElement)
  (nodes : batch (list (T * T))) (cc : list (T * T)) :
  raises_only incompatible_shapes (isomap shape_functions self nodes cc).
Proof.
  unfold isomap, shape_function.
  apply raises_only_bind; [|intros per; apply raises_only_Ok].
  apply raises_only_bmapM. intros en. apply raises_only_isomap_element.
Qed.


Lemma isomap_element_raises (dr ds : T * T -> list T) (p : T * T) (cc : list (T * T))
  (en : list (T * T)) :
  length (dr p) <> length en -> length (dr p) <> 1%nat -> length en <> 1%nat ->
  raises (isomap_element [dr <$> p :: cc; ds <$> p :: cc] en).
Proof.
  intros Hne Hd Hm. unfold isomap_element. cbn [nth].
  apply raises_bind.
  unfold broadcast22. rewrite broadcast2_singleton_r.
  cbn [mbind result_mbind result_bind fmap result_fmap].
  assert (Hrow : raises (broadcast2 s_mul (dr p) en.*1)).
  { unfold broadcast2. rewrite length_fmap.
    destruct (Nat.eqb_spec (length (dr p)) (length en)) as [E|_]; [contradiction|].
    destruct (dr p) as [|d0 [|d1 d]], en as [|n0 [|n1 en]]; cbn in *;
      try contradiction; eexists; reflexivity. }
  destruct Hrow as [e He].
  rewrite fmap_cons, fmap_cons, mapM_cons, He. now exists e.
Qed.

(** [isomap] raises the incompatible-shapes error as soon as one entry of
    the batch has a number of nodes that is neither the number of shape
    functions nor 1, when there is a canonical coordinate to evaluate. *)
Theorem isomap_rejects_wrong_node_count (self : TriangleElement)
  (nodes : batch (list (T * T))) (cc : list (T * T)) path en :
  shape_fn_regular shape_functions self ->
  cc <> [] ->
  bget path nodes = Some en ->
  length en <> Z.to_nat (element_dim self) ->
  length en <> 1%nat ->
  Z.to_nat (element_dim self) <> 1%nat ->
  isomap shape_functions self nodes cc = Raise incompatible_shapes.
Proof.
  intros Hreg Hcc Hen Hne Hm Hd.
  apply raises_only_raises.
  - apply raises_only_isomap.
  - destruct cc as [|p cc]; [contradiction|].
    unfold isomap, shape_function. rewrite zip_fst_snd.
    apply raises_bind. apply (bmapM_raises _ path nodes en Hen).
    destruct (Hreg p.1 p.2) as (_ & Hdr & _).
    apply (isomap_element_raises
             (fun p => (shape_functions (_shape_fn self) p.1 p.2).2.1)
             (fun p => (shape_functions (_shape_fn self) p.1 p.2).2.2));
      rewrite ?Hdr; auto.
Qed.

Lemma raises_only_tf_gather {A} (params : list A) (indices : list (list Z)) :
  raises_only indices_out_of_range (tf_gather params indices).
Proof.
  unfold tf_gather. apply raises_only_mapM. intros row _.
  apply raises_only_mapM. intros i _.
  destruct (if 0 <=? i then params !! Z.to_nat i else None);
    [apply raises_only_Ok|apply raises_only_Raise].
Qed.

Lemma tf_gather_raises (mesh : Mesh T) e elem k i :
  elements mesh !! e = Some elem -> elem !! k = Some i -> ~ valid_index mesh i ->
  tf_gather (nodes mesh) (elements mesh) = Raise indices_out_of_range.
Proof.
  intros He Hk Hi. apply raises_only_raises; [apply raises_only_tf_gather|].
  unfold tf_gather. apply (mapM_raises _ _ e elem He).
  apply (mapM_raises _ _ k i Hk).
  unfold valid_index, n_nodes in Hi.
  destruct (Z.leb_spec 0 i) as [Hlo|Hlo]; [|eexists; reflexivity].
  rewrite (lookup_ge_None_2 (nodes mesh) (Z.to_nat i)) by lia.
  eexists; reflexivity.
Qed.

(** For a constructed element, [get_quadrature_nodes] raises the
    out-of-range error of [tf.gather] when an index of [mesh.elements] is
    not an index into [mesh.nodes]; a negative index is such an index. *)
Theorem get_quadrature_nodes_index_out_of_range (deg : Z) (dt : DType)
  (self : TriangleElement) (mesh : Mesh T) e elem k i :
  TriangleElement_init deg dt = Ok self ->
  elements mesh !! e = Some elem -> elem !! k = Some i -> ~ valid_index mesh i ->
  get_quadrature_nodes shape_functions gauss_table_2 gauss_table_4 self mesh =
  Raise indices_out_of_range.
Proof.
  intros Hinit He Hk Hi.
  destruct (constructed_quadrature_rule gauss_table_2 gauss_table_4 deg dt self Hinit)
    as ([wts quad_nodes] & Hrule & _).
  unfold get_quadrature_nodes.
  unfold get_quadrature_nodes_and_weights in Hrule. rewrite Hrule.
  cbn [mbind result_mbind result_bind].
  rewrite (tf_gather_raises mesh e elem k i He Hk Hi). reflexivity.
Qed.

(** [assemble_local_convection_matrix] gathers the nodes first: with an
    index of [mesh.elements] that is not an index into [mesh.nodes] it
    raises the out-of-range error, whatever the element and the field. *)
Theorem assemble_local_convection_matrix_index_out_of_range
  (field : list (batch (list (list T)))) (mesh : Mesh T) (element : TriangleElement)
  e elem k i :
  elements mesh !! e = Some elem -> elem !! k = Some i -> ~ valid_index mesh i ->
  assemble_local_convection_matrix shape_functions gauss_table_2 gauss_table_4
    field mesh element = Raise indices_out_of_range.
Proof.
  intros He Hk Hi. unfold assemble_local_convection_matrix, convection_wxarea.
  rewrite (tf_gather_raises mesh e elem k i He Hk Hi). reflexivity.
Qed.

End Failures.

(** ** Shapes of the results, and how the operations compose *)

Section Shapes.
Context {T : Type} `{Scalar T}.
Variable shape_functions : shape_fn_name -> T -> T -> list T * (list T * list T).
Variable gauss_table_2 gauss_table_4 : list T * list (T * T).

(** The shapes of the docstring of [isomap]: for [n] canonical coordinates
    and [d] shape functions the shape values have shape [n, d], and the
    Jacobian determinant and each of the two physical gradients have the
    batch axes of [nodes], followed by [n] and by [n, d]. *)
Theorem isomap_output_shapes (self : TriangleElement) (nodes : batch (list (T * T)))
  (cc : list (T * T)) :
  shape_fn_regular shape_functions self ->
  batch_of_elements self nodes ->
  exists vals dSdx dSdy jacobian_det,
    isomap shape_functions self nodes cc = Ok (vals, [dSdx; dSdy], jacobian_det) /\
    length vals = length cc /\
    Forall (fun row => length row = Z.to_nat (element_dim self)) vals /\
    forall path,
      match bget path nodes with
      | Some _ =>
          (exists row, bget path jacobian_det = Some row /\ length row = length cc) /\
          (exists g, bget path dSdx = Some g /\ length g = length cc /\
                     Forall (fun r => length r = Z.to_nat (element_dim self)) g) /\
          (exists g, bget path dSdy = Some g /\ length g = length cc /\
                     Forall (fun r => length r = Z.to_nat (element_dim self)) g)
      | None =>
          bget path jacobian_det = None /\ bget path dSdx = None /\
          bget path dSdy = None
      end.
Proof.
  intros Hreg Hnodes. do 4 eexists.
  split; [apply isomap_closed; assumption|].
  split; [apply length_fmap|].
  split; [apply Forall_fmap_all; intros p; apply Hreg|].
  intros path. rewrite !bget_bmap.
  destruct (bget path nodes) as [en|]; cbn; [|auto].
  assert (Hrows : forall (f : T -> T -> T) (p : T * T),
            length (zip_with f (shape_functions (_shape_fn self) p.1 p.2).2.1
                                (shape_functions (_shape_fn self) p.1 p.2).2.2) =
            Z.to_nat (element_dim self)).
  { intros f p. rewrite length_zip_with.
    destruct (Hreg p.1 p.2) as (_ & -> & ->). lia. }
  repeat split; eexists; split; try reflexivity; try apply length_fmap;
    (split; [apply length_fmap|]); apply Forall_fmap_all; intros p; apply Hrows.
Qed.

(** The quadrature weights of the convection assembler have the shape
    [n_elements, n_quad]: one row per element of the mesh, one weight per
    quadrature node. *)
Theorem convection_wxarea_shape (deg : Z) (dt : DType)
  (self : TriangleElement) (mesh : Mesh T) :
  TriangleElement_init deg dt = Ok self ->
  length gauss_table_2.1 = length gauss_table_2.2 ->
  length gauss_table_4.1 = length gauss_table_4.2 ->
  shape_fn_regular shape_functions self ->
  mesh_of_elements self mesh ->
  indexes_validly mesh ->
  exists wts quad_nodes rows,
    get_quadrature_nodes_and_weights gauss_table_2 gauss_table_4 self =
      Ok (wts, quad_nodes) /\
    convection_wxarea shape_functions gauss_table_2 gauss_table_4 mesh self =
      Ok (batch_of_list rows) /\
    length rows = n_elements mesh /\
    Forall (fun row => length row = length quad_nodes) rows.
Proof.
  intros Hinit Hlen2 Hlen4 Hreg Hmesh Hvalid.
  destruct (constructed_quadrature_rule gauss_table_2 gauss_table_4 deg dt self Hinit)
    as ([wts quad_nodes] & Hrule & Htable).
  assert (Hlen : length wts = length quad_nodes)
    by (destruct Htable as [<- | <-]; assumption).
  destruct (convection_wxarea_closed shape_functions gauss_table_2 gauss_table_4
              self mesh wts quad_nodes Hrule Hlen Hreg Hmesh Hvalid)
    as (element_nodes & Hg & Heq).
  exists wts, quad_nodes. eexists. split; [exact Hrule|]. split; [exact Heq|].
  split.
  - rewrite length_fmap. unfold n_elements. symmetry. exact (Forall2_length _ _ _ Hg).
  - apply Forall_fmap_all. intros en.
    rewrite length_zip_with, length_fmap. lia.
Qed.

Lemma gathered_nodes_batch (self : TriangleElement) (mesh : Mesh T) element_nodes :
  mesh_of_elements self mesh ->
  Forall2 (gathered mesh) (elements mesh) element_nodes ->
  batch_of_elements self (batch_of_list element_nodes).
Proof.
  intros [Hrect Hwidth] Hg path en Hen.
  apply bget_batch_of_list in Hen as (e & -> & He).
  destruct (Forall2_lookup_r _ _ _ _ _ Hg He) as (elem & Helem & Hge).
  rewrite (gathered_length _ _ _ Hge).
  unfold rectangular in Hrect. rewrite Forall_forall in Hrect.
  rewrite (Hrect elem) by (apply list_elem_of_lookup; eauto). lia.
Qed.

Lemma get_quadrature_nodes_of_gather (self : TriangleElement) (mesh : Mesh T)
  wts quad_nodes element_nodes :
  gauss_quad_nodes_and_weights gauss_table_2 gauss_table_4
    (quadrature_order self) (dtype self) = Ok (wts, quad_nodes) ->
  tf_gather (nodes mesh) (elements mesh) = Ok element_nodes ->
  shape_fn_regular shape_functions self ->
  batch_of_elements self (batch_of_list element_nodes) ->
  get_quadrature_nodes shape_functions gauss_table_2 gauss_table_4 self mesh =
  Ok ((fun en =>
         (fun p => reduce_sum_pairs
                     (zip_with (fun (n : T * T) (v : T) => (s_mul n.1 v, s_mul n.2 v))
                               en (shape_functions (_shape_fn self) p.1 p.2).1))
         <$> quad_nodes) <$> element_nodes).
Proof.
  intros Hgauss Hgather Hreg Hb.
  unfold get_quadrature_nodes. rewrite Hgauss. cbn [mbind result_mbind result_bind].
  rewrite Hgather. cbn [mbind result_mbind result_bind].
  unfold shape_function. rewrite zip_fst_snd.
  apply mapM_Ok_map. intros en Hen.
  rewrite broadcast22_row_l.
  - cbn [mbind result_mbind result_bind]. now rewrite <- !list_fmap_compose.
  - apply Forall_fmap_all. intros p.
    destruct (Hreg p.1 p.2) as (-> & _ & _).
    apply list_elem_of_lookup in Hen as [e He].
    symmetry. apply (Hb [e]). now rewrite bget_batch_of_list_lookup.
Qed.

Lemma zip_with_scale_code_order (en : list (T * T)) (vals : list T) :
  reduce_sum_pairs (zip_with (fun (p : T * T) (v : T) => (s_mul p.1 v, s_mul p.2 v)) en vals) =
  (reduce_sum (zip_with s_mul (en.*1) vals), reduce_sum (zip_with s_mul (en.*2) vals)).
Proof.
  unfold reduce_sum_pairs. f_equal; f_equal.
  - revert vals. induction en as [|p en IH]; intros [|v vals]; try reflexivity.
    cbn. f_equal. apply IH.
  - revert vals. induction en as [|p en IH]; intros [|v vals]; try reflexivity.
    cbn. f_equal. apply IH.
Qed.

(** [get_quadrature_nodes] and [isomap] agree: a quadrature node of an
    element is the sum, over the nodes of the element, of the node
    coordinates times the shape values that [isomap] returns at the
    canonical quadrature node. *)
Theorem get_quadrature_nodes_from_isomap (deg : Z) (dt : DType)
  (self : TriangleElement) (mesh : Mesh T) :
  TriangleElement_init deg dt = Ok self ->
  shape_fn_regular shape_functions self ->
  mesh_of_elements self mesh ->
  indexes_validly mesh ->
  exists wts quad_nodes element_nodes vals grads dets quadrature_nodes,
    get_quadrature_nodes_and_weights gauss_table_2 gauss_table_4 self =
      Ok (wts, quad_nodes) /\
    tf_gather (nodes mesh) (elements mesh) = Ok element_nodes /\
    isomap shape_functions self (batch_of_list element_nodes) quad_nodes =
      Ok (vals, grads, dets) /\
    get_quadrature_nodes shape_functions gauss_table_2 gauss_table_4 self mesh =
      Ok quadrature_nodes /\
    forall e en q shape_vals,
      element_nodes !! e = Some en -> vals !! q = Some shape_vals ->
      exists row,
        quadrature_nodes !! e = Some row /\
        row !! q =
        Some (reduce_sum (zip_with s_mul (en.*1) shape_vals),
              reduce_sum (zip_with s_mul (en.*2) shape_vals)).
Proof.
  intros Hinit Hreg Hmesh Hvalid.
  destruct (constructed_quadrature_rule gauss_table_2 gauss_table_4 deg dt self Hinit)
    as ([wts quad_nodes] & Hrule & _).
  destruct (tf_gather_Ok mesh Hvalid) as (element_nodes & Hgather & Hg).
  pose proof (gathered_nodes_batch self mesh element_nodes Hmesh Hg) as Hb.
  exists wts, quad_nodes, element_nodes. do 4 eexists.
  split; [exact Hrule|]. split; [exact Hgather|].
  split; [apply (isomap_closed shape_functions self _ quad_nodes Hreg Hb)|].
  split; [apply (get_quadrature_nodes_of_gather self mesh wts quad_nodes element_nodes
                   Hrule Hgather Hreg Hb)|].
  intros e en q shape_vals He Hq.
  rewrite list_lookup_fmap in Hq.
  destruct (quad_nodes !! q) as [p|] eqn:Hp; [|discriminate]. injection Hq as <-.
  eexists. split; [rewrite list_lookup_fmap, He; reflexivity|].
  rewrite list_lookup_fmap, Hp. cbn [fmap option_fmap option_map].
  f_equal. apply zip_with_scale_code_order.
Qed.

End Shapes.

(** ** More on the construction of the element and the reorientation *)

(** A constructed element keeps the degree and the data type it was given;
    its quadrature order is twice its degree and its element_dim is the
    number [(p+1)(p+2)/2] of monomials of degree at most [p] in two
    variables; constructing again from its [degree] and [dtype] gives the
    same element. *)
Theorem TriangleElement_init_invariants (d : Z) (dt : DType) (self : TriangleElement) :
  TriangleElement_init d dt = Ok self ->
  degree self = d /\ dtype self = dt /\
  quadrature_order self = 2 * degree self /\
  2 * element_dim self = (degree self + 1) * (degree self + 2) /\
  TriangleElement_init (degree self) (dtype self) = Ok self.
Proof.
  unfold TriangleElement_init.
  destruct (Z.eqb_spec d 1) as [->|_]; [|destruct (Z.eqb_spec d 2) as [->|_]];
    intros [= <-]; cbn; repeat split; reflexivity.
Qed.

Lemma orientate_element_indices_quadratic {T} (self : TriangleElement) (mesh : Mesh T) :
  element_dim self = 6 -> (6 <= elements_width mesh)%nat ->
  orientate_element_indices self mesh = Ok (boundary_path_order <$> elements mesh).
Proof.
  intros Hdim Hw. unfold orientate_element_indices. rewrite Hdim. cbn [Z.eqb Pos.eqb].
  rewrite !slice_last_Ok by lia. cbn [mbind result_mbind result_bind concat_last].
  rewrite !zip_with_map_map. reflexivity.
Qed.

Lemma boundary_path_order_row (v0 v1 v2 m0 m1 m2 : Z) :
  boundary_path_order [v0; v1; v2; m0; m1; m2] = [v0; m2; v1; m0; v2; m1].
Proof. reflexivity. Qed.

Lemma row_of_six (row : list Z) :
  length row = 6%nat -> exists v0 v1 v2 m0 m1 m2, row = [v0; v1; v2; m0; m1; m2].
Proof.
  destruct row as [|v0 [|v1 [|v2 [|m0 [|m1 [|m2 [|]]]]]]]; try discriminate.
  intros _. now exists v0, v1, v2, m0, m1, m2.
Qed.

(** For a constructed element and a mesh of its elements,
    [orientate_element_indices] returns: each row of the result is a
    permutation of the row it comes from, so the result is a connectivity
    of the same width, and its indices are valid when those of the mesh
    are. *)
Theorem orientate_element_indices_permutes {T} (d : Z) (dt : DType)
  (self : TriangleElement) (mesh : Mesh T) :
  TriangleElement_init d dt = Ok self ->
  mesh_of_elements self mesh ->
  exists out,
    orientate_element_indices self mesh = Ok out /\
    Forall2 (fun row row' => row' ≡ₚ row) (elements mesh) out /\
    rectangular (with_elements mesh out) /\
    (indexes_validly mesh -> indexes_validly (with_elements mesh out)).
Proof.
  intros Hinit [Hrect Hwidth].
  assert (Hperm : exists out,
            orientate_element_indices self mesh = Ok out /\
            Forall2 (fun row row' => row' ≡ₚ row) (elements mesh) out).
  { revert Hinit Hwidth. unfold TriangleElement_init.
    destruct (Z.eqb_spec d 1) as [->|_]; [|destruct (Z.eqb_spec d 2) as [->|_]];
      intros [= <-]; cbn [element_dim _element_dim]; intros Hwidth.
    - exists (elements mesh). split; [reflexivity|].
      apply Forall2_same_length_lookup_2; [reflexivity|].
      intros i x y Hx Hy. rewrite Hx in Hy. now injection Hy as <-.
    - eexists. split; [apply orientate_element_indices_quadratic; [reflexivity|lia]|].
      apply Forall2_fmap_r, Forall_Forall2_diag, Forall_forall. intros row Hrow.
      unfold rectangular in Hrect. rewrite Forall_forall in Hrect.
      destruct (row_of_six row) as (v0 & v1 & v2 & m0 & m1 & m2 & ->);
        [rewrite (Hrect row Hrow); lia|].
      unfold compose. rewrite boundary_path_order_row.
      apply perm_skip.
      change ([m2] ++ [v1] ++ [m0] ++ [v2] ++ [m1] ≡ₚ [v1] ++ [v2] ++ [m0] ++ [m1] ++ [m2]).
      solve_Permutation. }
  destruct Hperm as (out & Heq & Hperm). exists out. split; [exact Heq|].
  split; [exact Hperm|]. split.
  - unfold rectangular, with_elements. cbn.
    apply Forall_forall. intros row' Hrow'.
    apply list_elem_of_lookup in Hrow' as [e He].
    destruct (Forall2_lookup_r _ _ _ _ _ Hperm He) as (row & Hrow & Hp).
    rewrite (Permutation_length Hp).
    unfold rectangular in Hrect. rewrite Forall_forall in Hrect.
    apply Hrect, list_elem_of_lookup. eauto.
  - intros Hvalid. unfold indexes_validly, with_elements in *. cbn.
    apply Forall_forall. intros row' Hrow'.
    apply list_elem_of_lookup in Hrow' as [e He].
    destruct (Forall2_lookup_r _ _ _ _ _ Hperm He) as (row & Hrow & Hp).
    rewrite Forall_forall in Hvalid.
    rewrite Hp. apply Hvalid, list_elem_of_lookup. eauto.
Qed.


Lemma slice_last_Raise (width : nat) (t : list (list Z)) (k : nat) :
  (width <= k)%nat -> slice_last width t k = Raise slice_out_of_bounds.
Proof.
  intros Hk. unfold slice_last. destruct (Nat.ltb_spec k width); [lia|reflexivity].
Qed.

(** With a quadratic element and a connectivity of fewer than six columns,
    [orientate_element_indices] raises the out-of-bounds error of the
    slice, whatever the rows are. *)
Theorem orientate_element_indices_narrow_mesh {T} (self : TriangleElement) (mesh : Mesh T) :
  element_dim self = 6 -> (elements_width mesh < 6)%nat ->
  orientate_element_indices self mesh = Raise slice_out_of_bounds.
Proof.
  intros Hdim Hw. unfold orientate_element_indices. rewrite Hdim. cbn [Z.eqb Pos.eqb].
  destruct (Nat.eq_dec (elements_width mesh) 0%nat) as [E|E].
  - rewrite (slice_last_Raise _ _ 0) by lia. reflexivity.
  - rewrite (slice_last_Ok _ _ 0) by lia. cbn [mbind result_mbind result_bind].
    rewrite (slice_last_Raise _ _ 5) by lia. reflexivity.
Qed.

(** ** More on the mesh provider *)

Section ProviderConstruction.
Context {T : Type}.
Variables Repr Precond : Type.
Variable get_tensor_repr : Mesh T -> Repr.
Variable AssembleStiffnessMatrix : TriangleElement -> Repr -> result (list Precond).

Ltac unfold_traced :=
  cbv [mbind Traced_mbind traced_bind external traced_ret traced_raise
       _build_precond_matrix];
  cbn [mesh reference_element].




(** What a constructed [MeshProvider] holds: the mesh, the element and the
    padding it was given, the node and element counts of the mesh, a mesh
    whose connectivity has the element's element_dim as width, and a
    preconditioning matrix exactly when it was asked for, which is the
    first entry of what the stiffness assembly returns on the mesh. *)
Theorem MeshProvider_init_invariants (msh : Mesh T) (ref_element : TriangleElement)
  (padding : Z) (return_precond : bool) tr0 self tr1 :
  MeshProvider_init Repr Precond get_tensor_repr AssembleStiffnessMatrix
    msh ref_element padding return_precond tr0 = (Ok self, tr1) ->
  reference_element self = ref_element /\
  mesh self = msh /\
  padding_element self = padding /\
  mp_n_nodes self = n_nodes msh /\
  mp_n_elements self = n_elements msh /\
  return_precond_matrix self = return_precond /\
  Z.of_nat (elements_width (mesh self)) = element_dim (reference_element self) /\
  (precond_matrix self = None <-> return_precond = false) /\
  (forall pm, precond_matrix self = Some pm ->
     exists out, AssembleStiffnessMatrix ref_element (get_tensor_repr msh) = Ok (pm :: out)).
Proof.
  unfold MeshProvider_init. unfold_traced.
  destruct (Z.eqb_spec (Z.of_nat (elements_width msh)) (element_dim ref_element)) as [E|E];
    cbn [negb]; [|discriminate].
  destruct return_precond.
  - unfold_traced.
    destruct (AssembleStiffnessMatrix ref_element (get_tensor_repr msh))
      as [[|pm out]|e]; try discriminate.
    intros [= <- _]. cbn. repeat split; try assumption; try discriminate.
    intros pm' [= <-]. eauto.
  - intros [= <- _]. cbn. repeat split; try assumption; discriminate.
Qed.

End ProviderConstruction.

(** ** Runs on [tf.float64] *)

Lemma SFmul_comm prec emax x y : SFmul prec emax x y = SFmul prec emax y x.
Proof.
  destruct x as [sx|sx| |sx mx ex], y as [sy|sy| |sy my ey]; simpl; try reflexivity;
    rewrite ?(xorb_comm sx sy); try reflexivity.
  rewrite (Pos.mul_comm mx my), (Z.add_comm ex ey). reflexivity.
Qed.

#[global] Instance float64_laws : ScalarLaws float.
Proof.
  constructor. intros a b. cbn.
  rewrite <- (SF2Prim_Prim2SF (PrimFloat.mul a b)), <- (SF2Prim_Prim2SF (PrimFloat.mul b a)).
  rewrite !mul_spec. unfold SF64mul. now rewrite SFmul_comm.
Qed.

Lemma float64_shape_fn_regular (deg : Z) (dt : DType) (self : TriangleElement) :
  TriangleElement_init deg dt = Ok self ->
  shape_fn_regular Float64.shape_functions self.
Proof.
  unfold TriangleElement_init.
  destruct (deg =? 1); [|destruct (deg =? 2)]; intros [= <-];
    intros r s; repeat split; reflexivity.
Defined.

Lemma unit_triangle_mesh_of_elements :
  mesh_of_elements Float64.linear_element Float64.unit_triangle.
Proof. split; [repeat constructor|reflexivity]. Defined.

Lemma reversed_triangle_mesh_of_elements :
  mesh_of_elements Float64.linear_element Float64.reversed_triangle.
Proof. split; [repeat constructor|reflexivity]. Defined.

Lemma unit_triangle_indexes_validly : indexes_validly Float64.unit_triangle.
Proof. repeat constructor; cbn; lia. Defined.

Lemma reversed_triangle_indexes_validly : indexes_validly Float64.reversed_triangle.
Proof. repeat constructor; cbn; lia. Defined.

Lemma two_elements_batch :
  batch_of_elements Float64.linear_element
    (batch_of_list [Float64.unit_nodes; Float64.flat_element]).
Proof.
  intros path en Hen. apply bget_batch_of_list in Hen as (i & _ & Hi).
  destruct i as [|[|i]]; cbn in Hi; [| |discriminate]; injection Hi as <-; reflexivity.
Defined.

Lemma isomap_spec_witness :
  shape_fn_regular Float64.shape_functions Float64.linear_element /\
  batch_of_elements Float64.linear_element
    (batch_of_list [Float64.unit_nodes; Float64.flat_element]) /\
  is_Ok (isomap Float64.shape_functions Float64.linear_element
           (batch_of_list [Float64.unit_nodes; Float64.flat_element])
           Float64.gauss_table_2.2).
Proof.
  pose proof (float64_shape_fn_regular 1 tf_float64 _ eq_refl) as Hreg.
  pose proof two_elements_batch as Hb.
  split; [exact Hreg|]. split; [exact Hb|].
  destruct (isomap_spec Float64.shape_functions Float64.linear_element _
              Float64.gauss_table_2.2 Hreg Hb) as (vals & gx & gy & dets & Heq & _).
  exists (vals, [gx; gy], dets). exact Heq.
Defined.

(** On the degenerate element, at the canonical point [(0, 0)], [isomap]
    returns normally: the determinant it returns is zero and the gradients
    are NaN and infinities. *)
Lemma isomap_flat_element_returns :
  isomap Float64.shape_functions Float64.linear_element
    (Item Float64.flat_element) [(0, 0)%float] =
  Ok ([[1; 0; 0]],
      [Item [[nan; nan; nan]]; Item [[infinity; neg_infinity; infinity]]],
      Item [0])%float /\
  ~ raises (isomap Float64.shape_functions Float64.linear_element
              (Item Float64.flat_element) [(0, 0)%float]).
Proof.
  split; [vm_compute; reflexivity|].
  intros [e He]. vm_compute in He. discriminate.
Qed.

Lemma isomap_divides_by_zero_determinant_witness :
  shape_fn_regular Float64.shape_functions Float64.linear_element /\
  batch_of_elements Float64.linear_element
    (batch_of_list [Float64.unit_nodes; Float64.flat_element]) /\
  is_Ok (isomap Float64.shape_functions Float64.linear_element
           (batch_of_list [Float64.unit_nodes; Float64.flat_element])
           [(0, 0)%float]).
Proof.
  pose proof (float64_shape_fn_regular 1 tf_float64 _ eq_refl) as Hreg.
  pose proof two_elements_batch as Hb.
  split; [exact Hreg|]. split; [exact Hb|].
  destruct (isomap_divides_by_zero_determinant Float64.shape_functions
              Float64.linear_element _ [(0, 0)%float] Hreg Hb)
    as (vals & gx & gy & dets & Heq & _).
  exists (vals, [gx; gy], dets). exact Heq.
Defined.

Lemma get_quadrature_nodes_spec_witness :
  TriangleElement_init 1 tf_float64 = Ok Float64.linear_element /\
  mesh_of_elements Float64.linear_element Float64.unit_triangle /\
  indexes_validly Float64.unit_triangle /\
  is_Ok (get_quadrature_nodes Float64.shape_functions Float64.gauss_table_2
           Float64.gauss_table_4 Float64.linear_element Float64.unit_triangle).
Proof.
  split; [reflexivity|].
  split; [exact unit_triangle_mesh_of_elements|].
  split; [exact unit_triangle_indexes_validly|].
  destruct (get_quadrature_nodes_spec Float64.shape_functions Float64.gauss_table_2
              Float64.gauss_table_4 1 tf_float64 Float64.linear_element
              Float64.unit_triangle eq_refl
              (float64_shape_fn_regular 1 tf_float64 _ eq_refl)
              unit_triangle_mesh_of_elements unit_triangle_indexes_validly)
    as (wts & qn & out & _ & Heq & _).
  exists out. exact Heq.
Defined.

(** On the unit triangle with two vertices exchanged the Jacobian
    determinant is [-1] at every quadrature node, and the weight the
    assembler forms is [-1 · (1/3) / 2], not [|-1| · (1/3) / 2]; it is not
    the weight of the unit triangle. *)
Lemma convection_wxarea_reversed_triangle :
  snd <$> isomap Float64.shape_functions Float64.linear_element
            (batch_of_list [[(0, 0); (0, 1); (1, 0)]%float]) Float64.gauss_table_2.2 =
    Ok (batch_of_list [[-1; -1; -1]%float]) /\
  convection_wxarea Float64.shape_functions Float64.gauss_table_2 Float64.gauss_table_4
    Float64.reversed_triangle Float64.linear_element =
    Ok (batch_of_list [[-1 * (1 / 3) / 2; -1 * (1 / 3) / 2; -1 * (1 / 3) / 2]%float]) /\
  convection_wxarea Float64.shape_functions Float64.gauss_table_2 Float64.gauss_table_4
    Float64.unit_triangle Float64.linear_element =
    Ok (batch_of_list [[1 * (1 / 3) / 2; 1 * (1 / 3) / 2; 1 * (1 / 3) / 2]%float]) /\
  spec_wxarea (-1)%float (1 / 3)%float = (1 * (1 / 3) / 2)%float /\
  (-1 * (1 / 3) / 2)%float <> (1 * (1 / 3) / 2)%float.
Proof.
  repeat split; try (vm_compute; reflexivity).
  intros Heq. apply (f_equal (fun v => PrimFloat.ltb v 0)) in Heq.
  vm_compute in Heq. discriminate.
Qed.

Lemma convection_wxarea_signed_witness :
  TriangleElement_init 1 tf_float64 = Ok Float64.linear_element /\
  mesh_of_elements Float64.linear_element Float64.reversed_triangle /\
  indexes_validly Float64.reversed_triangle /\
  is_Ok (convection_wxarea Float64.shape_functions Float64.gauss_table_2
           Float64.gauss_table_4 Float64.reversed_triangle Float64.linear_element).
Proof.
  split; [reflexivity|].
  split; [exact reversed_triangle_mesh_of_elements|].
  split; [exact reversed_triangle_indexes_validly|].
  destruct (convection_wxarea_signed Float64.shape_functions Float64.gauss_table_2
              Float64.gauss_table_4 1 tf_float64 Float64.linear_element
              Float64.reversed_triangle eq_refl eq_refl eq_refl
              (float64_shape_fn_regular 1 tf_float64 _ eq_refl)
              reversed_triangle_mesh_of_elements reversed_triangle_indexes_validly)
    as (wts & qn & wx & _ & Heq & _).
  exists wx. exact Heq.
Defined.

(** C1, on the code. On the unit triangle, with a linear element and a
    transport field of the documented shape, the call of
    [assemble_local_convection_matrix] returns [None]: no local convection
    matrix is returned. *)
Theorem assemble_local_convection_matrix_unit_triangle :
  assemble_local_convection_matrix Float64.shape_functions Float64.gauss_table_2
    Float64.gauss_table_4 Float64.unit_field Float64.unit_triangle
    Float64.linear_element = Ok None.
Proof. vm_compute. reflexivity. Qed.

Lemma MeshProvider_init_shape_mismatch_witness :
  Z.of_nat (elements_width Float64.unit_triangle) <> element_dim Float64.quadratic_element /\
  (MeshProvider_init unit unit (fun _ => tt) (fun _ _ => Ok [tt])
     Float64.unit_triangle Float64.quadratic_element (-1) true []).1 =
  Raise (ValueError [1; 3] 6).
Proof.
  assert (Hneq : Z.of_nat (elements_width Float64.unit_triangle) <>
                 element_dim Float64.quadratic_element) by (cbn; lia).
  split; [exact Hneq|].
  destruct (MeshProvider_init_shape_mismatch unit unit (fun _ => tt) (fun _ _ => Ok [tt])
              Float64.unit_triangle Float64.quadratic_element (-1) true Hneq)
    as (trace & Heq & _).
  rewrite Heq. reflexivity.
Defined.

Lemma MeshProvider_call_ignores_inputs_witness :
  exists self tr1,
    MeshProvider_init unit unit (fun _ => tt) (fun _ _ => Ok [tt])
      Float64.unit_triangle Float64.linear_element (-1) true [] = (Ok self, tr1) /\
    MeshProvider_call unit unit (fun _ => tt) self 7%nat tr1 =
    MeshProvider_call unit unit (fun _ => tt) self "inputs"%string tr1.
Proof.
  exists (@mkMeshProvider float unit Float64.linear_element Float64.unit_triangle
            (-1) 3%nat 1%nat true (Some tt)).
  exists [Call_BaseFEMLayer_init; Call_get_tensor_repr; Call_AssembleStiffnessMatrix].
  split; [reflexivity|].
  apply (MeshProvider_call_ignores_inputs unit unit (fun _ => tt) (fun _ _ => Ok [tt])
           Float64.unit_triangle Float64.linear_element (-1) true [] _ _ eq_refl).
Defined.

(** ** Further runs on [tf.float64] *)


Lemma isomap_rejects_wrong_node_count_witness :
  shape_fn_regular Float64.shape_functions Float64.linear_element /\
  isomap Float64.shape_functions Float64.linear_element
    (batch_of_list [Float64.unit_nodes; Float64.two_node_element]) [(0, 0)%float] =
  Raise incompatible_shapes.
Proof.
  pose proof (float64_shape_fn_regular 1 tf_float64 _ eq_refl) as Hreg.
  split; [exact Hreg|].
  apply (isomap_rejects_wrong_node_count Float64.shape_functions Float64.linear_element
           _ [(0, 0)%float] [1%nat] Float64.two_node_element Hreg);
    [discriminate|reflexivity|cbn; lia|cbn; lia|cbn; lia].
Defined.

Lemma isomap_output_shapes_witness :
  batch_of_elements Float64.linear_element
    (batch_of_list [Float64.unit_nodes; Float64.flat_element]) /\
  is_Ok (isomap Float64.shape_functions Float64.linear_element
           (batch_of_list [Float64.unit_nodes; Float64.flat_element])
           Float64.gauss_table_2.2).
Proof.
  pose proof (float64_shape_fn_regular 1 tf_float64 _ eq_refl) as Hreg.
  pose proof two_elements_batch as Hb.
  split; [exact Hb|].
  destruct (isomap_output_shapes Float64.shape_functions Float64.linear_element _
              Float64.gauss_table_2.2 Hreg Hb) as (vals & gx & gy & dets & Heq & _).
  exists (vals, [gx; gy], dets). exact Heq.
Defined.

Lemma convection_wxarea_shape_witness :
  TriangleElement_init 1 tf_float64 = Ok Float64.linear_element /\
  mesh_of_elements Float64.linear_element Float64.unit_triangle /\
  indexes_validly Float64.unit_triangle /\
  is_Ok (convection_wxarea Float64.shape_functions Float64.gauss_table_2
           Float64.gauss_table_4 Float64.unit_triangle Float64.linear_element).
Proof.
  split; [reflexivity|].
  split; [exact unit_triangle_mesh_of_elements|].
  split; [exact unit_triangle_indexes_validly|].
  destruct (convection_wxarea_shape Float64.shape_functions Float64.gauss_table_2
              Float64.gauss_table_4 1 tf_float64 Float64.linear_element
              Float64.unit_triangle eq_refl eq_refl eq_refl
              (float64_shape_fn_regular 1 tf_float64 _ eq_refl)
              unit_triangle_mesh_of_elements unit_triangle_indexes_validly)
    as (wts & qn & rows & _ & Heq & _).
  eexists. exact Heq.
Defined.

Lemma get_quadrature_nodes_from_isomap_witness :
  TriangleElement_init 1 tf_float64 = Ok Float64.linear_element /\
  mesh_of_elements Float64.linear_element Float64.unit_triangle /\
  indexes_validly Float64.unit_triangle /\
  is_Ok (get_quadrature_nodes Float64.shape_functions Float64.gauss_table_2
           Float64.gauss_table_4 Float64.linear_element Float64.unit_triangle).
Proof.
  split; [reflexivity|].
  split; [exact unit_triangle_mesh_of_elements|].
  split; [exact unit_triangle_indexes_validly|].
  destruct (get_quadrature_nodes_from_isomap Float64.shape_functions Float64.gauss_table_2
              Float64.gauss_table_4 1 tf_float64 Float64.linear_element
              Float64.unit_triangle eq_refl
              (float64_shape_fn_regular 1 tf_float64 _ eq_refl)
              unit_triangle_mesh_of_elements unit_triangle_indexes_validly)
    as (wts & qn & en & vals & g & d & out & _ & _ & _ & Heq & _).
  exists out. exact Heq.
Defined.

Lemma padded_triangle_invalid_index : ~ valid_index Float64.padded_triangle (-1).
Proof. unfold valid_index. lia. Defined.

Lemma get_quadrature_nodes_index_out_of_range_witness :
  get_quadrature_nodes Float64.shape_functions Float64.gauss_table_2
    Float64.gauss_table_4 Float64.linear_element Float64.padded_triangle =
  Raise indices_out_of_range.
Proof.
  apply (get_quadrature_nodes_index_out_of_range Float64.shape_functions
           Float64.gauss_table_2 Float64.gauss_table_4 1 tf_float64
           Float64.linear_element Float64.padded_triangle 0%nat [0; 1; -1] 2%nat (-1)
           eq_refl eq_refl eq_refl padded_triangle_invalid_index).
Defined.

Lemma assemble_local_convection_matrix_index_out_of_range_witness :
  assemble_local_convection_matrix Float64.shape_functions Float64.gauss_table_2
    Float64.gauss_table_4 Float64.unit_field Float64.padded_triangle
    Float64.linear_element = Raise indices_out_of_range.
Proof.
  apply (assemble_local_convection_matrix_index_out_of_range Float64.shape_functions
           Float64.gauss_table_2 Float64.gauss_table_4 Float64.unit_field
           Float64.padded_triangle Float64.linear_element 0%nat [0; 1; -1] 2%nat (-1)
           eq_refl eq_refl padded_triangle_invalid_index).
Defined.

Lemma TriangleElement_init_invariants_witness :
  TriangleElement_init 2 tf_float64 = Ok Float64.quadratic_element /\
  quadrature_order Float64.quadratic_element = 2 * degree Float64.quadratic_element.
Proof.
  split; [reflexivity|].
  apply (TriangleElement_init_invariants 2 tf_float64 Float64.quadratic_element eq_refl).
Defined.

Lemma quadratic_triangle_mesh_of_elements :
  mesh_of_elements Float64.quadratic_element Float64.quadratic_triangle.
Proof. split; [repeat constructor|reflexivity]. Defined.

Lemma orientate_element_indices_permutes_witness :
  TriangleElement_init 2 tf_float64 = Ok Float64.quadratic_element /\
  mesh_of_elements Float64.quadratic_element Float64.quadratic_triangle /\
  is_Ok (orientate_element_indices Float64.quadratic_element Float64.quadratic_triangle).
Proof.
  split; [reflexivity|]. split; [exact quadratic_triangle_mesh_of_elements|].
  destruct (orientate_element_indices_permutes 2 tf_float64 Float64.quadratic_element
              Float64.quadratic_triangle eq_refl quadratic_triangle_mesh_of_elements)
    as (out & Heq & _).
  exists out. exact Heq.
Defined.


Lemma orientate_element_indices_narrow_mesh_witness :
  element_dim Float64.quadratic_element = 6 /\
  (elements_width Float64.unit_triangle < 6)%nat /\
  orientate_element_indices Float64.quadratic_element Float64.unit_triangle =
  Raise slice_out_of_bounds.
Proof.
  split; [reflexivity|]. split; [cbn; lia|].
  apply (orientate_element_indices_narrow_mesh Float64.quadratic_element
           Float64.unit_triangle eq_refl).
  cbn. lia.
Defined.


Lemma MeshProvider_init_invariants_witness :
  exists self tr1,
    MeshProvider_init unit unit (fun _ => tt) (fun _ _ => Ok [tt])
      Float64.unit_triangle Float64.linear_element (-1) true [] = (Ok self, tr1) /\
    Z.of_nat (elements_width (mesh self)) = element_dim (reference_element self).
Proof.
  exists (@mkMeshProvider float unit Float64.linear_element Float64.unit_triangle
            (-1) 3%nat 1%nat true (Some tt)).
  exists [Call_BaseFEMLayer_init; Call_get_tensor_repr; Call_AssembleStiffnessMatrix].
  split; [reflexivity|].
  apply (MeshProvider_init_invariants unit unit (fun _ => tt) (fun _ _ => Ok [tt])
           Float64.unit_triangle Float64.linear_element (-1) true [] _ _ eq_refl).
Defined.
